(** * MeteoSwiss opendata-nwp-demos: plot utilities

    A shallow embedding of the two helpers of the repository,

    - [load_ncl_rgb_colors] of [developer_notebooks/plot_utils/load_colormaps.py],
    - [get_valid_data_frame] of [plot_utils/plot_valid_data_frame.py],

    and the properties the specification states about them, where they
    are called [load_colors] and [compute_valid_hull].

    Python values are modelled as follows.  A [str] is a [string] whose
    characters are the code points below 256; an [int] is a [Z]; a [float] is
    an IEEE 754 binary64 value, [spec_float] at precision 53 and maximal
    exponent 1024; an exception is a value of [exn] carried by [result]. *)

From Stdlib Require Import ZArith List Bool Ascii String DecimalString Lia.
From Stdlib Require Import QArith Lqa.
From Stdlib Require Import Floats.SpecFloat.
Import ListNotations.

Open Scope string_scope.
Open Scope Z_scope.

(** ** Exceptions *)

Inductive exn : Type :=
| FileNotFoundError (msg : string)
| IsADirectoryError
| ValueError
| OverflowError
| ZeroDivisionError
| IndexError
| GEOSException.

Inductive result (A : Type) : Type :=
| Ok (a : A)
| Raise (e : exn).

Arguments Ok {A} a.
Arguments Raise {A} e.

Definition bind {A B : Type} (m : result A) (k : A -> result B) : result B :=
  match m with
  | Ok a => k a
  | Raise e => Raise e
  end.

Notation "x <- m ;; k" := (bind m (fun x => k))
  (at level 61, m at next level, right associativity).

(** ** Python floats *)

Module Float.

Definition prec : Z := 53.
Definition emax : Z := 1024.

Definition float : Type := spec_float.

Definition zero : float := S754_zero false.
Definition one : float := SFone prec emax.

Definition leb (x y : float) : bool := SFleb x y.
Definition ltb (x y : float) : bool := SFltb x y.
Definition isnan (x : float) : bool :=
  match x with
  | S754_nan => true
  | _ => false
  end.

(** The exact value of an [int] as an unrounded binary number. *)
Definition of_int_exact (n : Z) : spec_float :=
  match n with
  | Z0 => S754_zero false
  | Zpos p => S754_finite false p 0
  | Zneg p => S754_finite true p 0
  end.

(** [float(n)] *)
Definition of_int (n : Z) : float := binary_normalize prec emax n 0 false.

(** [a / b] on two [int]s: the quotient rounded once, to nearest even;
    [ZeroDivisionError] for a zero divisor and [OverflowError] when the
    rounded quotient is not finite. *)
Definition int_truediv (a b : Z) : result float :=
  if b =? 0 then Raise ZeroDivisionError
  else
    match SFdiv prec emax (of_int_exact a) (of_int_exact b) with
    | S754_infinity _ => Raise OverflowError
    | S754_nan => Raise OverflowError
    | q => Ok q
    end.

End Float.

Abbreviation float := Float.float.

(** ** Python strings *)

Module Str.

(** [str.isspace] on one character, for the code points below 256. *)
Definition isspace (c : ascii) : bool :=
  let n := N_of_ascii c in
  (((9 <=? n) && (n <=? 13)) || ((28 <=? n) && (n <=? 32))
   || (n =? 133) || (n =? 160))%N.

Definition isdigit (c : ascii) : bool :=
  let n := N_of_ascii c in ((48 <=? n) && (n <=? 57))%N.

Definition digit_value (c : ascii) : Z := Z.of_N (N_of_ascii c) - 48.

Definition is_empty (s : string) : bool :=
  match s with
  | EmptyString => true
  | String _ _ => false
  end.

(** Stripping the characters that satisfy [sp] from both ends. *)
Section Strip.
Variable sp : ascii -> bool.

Fixpoint lstrip_with (s : string) : string :=
  match s with
  | EmptyString => EmptyString
  | String c s' => if sp c then lstrip_with s' else s
  end.

Fixpoint rstrip_with (s : string) : string :=
  match s with
  | EmptyString => EmptyString
  | String c s' =>
      match rstrip_with s' with
      | EmptyString => if sp c then EmptyString else String c EmptyString
      | r => String c r
      end
  end.

Definition strip_with (s : string) : string := rstrip_with (lstrip_with s).
End Strip.

(** [s.strip()] *)
Definition strip (s : string) : string := strip_with isspace s.

(** [s.startswith(p)] *)
Fixpoint startswith (p s : string) : bool :=
  match p, s with
  | EmptyString, _ => true
  | String a p', String b s' => Ascii.eqb a b && startswith p' s'
  | String _ _, EmptyString => false
  end.

(** [p in s] *)
Fixpoint contains (p s : string) : bool :=
  startswith p s ||
  match s with
  | EmptyString => false
  | String _ s' => contains p s'
  end.

(** [s.split()]: the maximal runs of non-whitespace characters, in order.
    [tok] is the run being read. *)
Fixpoint split_from (tok s : string) : list string :=
  match s with
  | EmptyString => if is_empty tok then [] else [tok]
  | String c s' =>
      if isspace c
      then (if is_empty tok then split_from EmptyString s'
            else tok :: split_from EmptyString s')
      else split_from (tok ++ String c EmptyString) s'
  end.

Definition split (s : string) : list string := split_from EmptyString s.

(** The default of [sys.get_int_max_str_digits()]. *)
Definition int_max_str_digits : nat := 4300.

(** The digits of a decimal literal, most significant first, where single
    underscores may separate digits.  [prev_digit] tells whether the
    previous character was a digit; [acc] is the value read so far and [n]
    the number of digits read. *)
Fixpoint parse_digits (prev_digit : bool) (acc : Z) (n : nat) (s : string)
  : option (Z * nat) :=
  match s with
  | EmptyString => if prev_digit then Some (acc, n) else None
  | String c s' =>
      if isdigit c then parse_digits true (10 * acc + digit_value c) (S n) s'
      else if Ascii.eqb c "_" then
        (if prev_digit then parse_digits false acc n s' else None)
      else None
  end.

(** The characters [int] ignores around a literal: the separators 28 to 31
    are whitespace for [str.isspace] but not here. *)
Definition int_isspace (c : ascii) : bool :=
  let n := N_of_ascii c in
  (((9 <=? n) && (n <=? 13)) || (n =? 32) || (n =? 133) || (n =? 160))%N.

(** The optional sign of a literal and what follows it. *)
Definition split_sign (s : string) : bool * string :=
  match s with
  | String c s' =>
      if Ascii.eqb c "-" then (true, s')
      else if Ascii.eqb c "+" then (false, s')
      else (false, s)
  | EmptyString => (false, s)
  end.

(** [int(s)] in base 10. *)
Definition int (s : string) : result Z :=
  let s := strip_with int_isspace s in
  let '(neg, body) := split_sign s in
  match parse_digits false 0 0 body with
  | Some (v, n) =>
      if (int_max_str_digits <? n)%nat then Raise ValueError
      else Ok (if neg then - v else v)
  | None => Raise ValueError
  end.

End Str.

(** ** The file system *)

Inductive node : Type :=
| File (text : string)
| Directory.

(** What the file system holds at each path. *)
Definition filesystem : Type := string -> option node.

Module Os.

Definition sep : ascii := "/".

Fixpoint endswith_sep (s : string) : bool :=
  match s with
  | EmptyString => false
  | String c EmptyString => Ascii.eqb c sep
  | String _ s' => endswith_sep s'
  end.

(** [os.path.join(a, b)] on a POSIX system. *)
Definition path_join (a b : string) : string :=
  if Str.startswith (String sep EmptyString) b then b
  else if Str.is_empty a || endswith_sep a then a ++ b
  else a ++ String sep EmptyString ++ b.

(** [os.path.exists(path)] *)
Definition path_exists (fs : filesystem) (path : string) : bool :=
  match fs path with
  | Some _ => true
  | None => false
  end.

Definition LF : ascii := "010".
Definition CR : ascii := "013".

(** Universal newlines, the default of a text-mode [open]: a carriage
    return, alone or followed by a line feed, is read as one line feed.
    [after_cr] tells whether the previous character was a carriage return. *)
Fixpoint universal_newlines (after_cr : bool) (s : string) : string :=
  match s with
  | EmptyString => EmptyString
  | String c s' =>
      if Ascii.eqb c CR then String LF (universal_newlines true s')
      else if Ascii.eqb c LF then
        (if after_cr then universal_newlines false s'
         else String LF (universal_newlines false s'))
      else String c (universal_newlines false s')
  end.

(** The lines a file iterator yields, each with its line feed. [cur] is the
    line being read. *)
Fixpoint lines_from (cur s : string) : list string :=
  match s with
  | EmptyString => if Str.is_empty cur then [] else [cur]
  | String c s' =>
      if Ascii.eqb c LF
      then (cur ++ String LF EmptyString) :: lines_from EmptyString s'
      else lines_from (cur ++ String c EmptyString) s'
  end.

Definition readlines (text : string) : list string :=
  lines_from EmptyString (universal_newlines false text).

(** [open(path)] followed by the iteration over the lines. *)
Definition open_lines (fs : filesystem) (path : string) : result (list string) :=
  match fs path with
  | Some (File text) => Ok (readlines text)
  | Some Directory => Raise IsADirectoryError
  | None => Raise (FileNotFoundError path)
  end.

End Os.

(** ** load_colormaps.py *)

Definition color : Type := float * float * float.

(** One pass of the body of [for line in f], on the list [colors] built so
    far. *)
Definition loop_body (colors : list color) (line : string) : result (list color) :=
  let line := Str.strip line in
  if Str.is_empty line || Str.startswith "#" line || Str.contains "ncolors" line
  then Ok colors
  else
    let parts := Str.split line in
    if (List.length parts =? 3)%nat then
      match parts with
      | [p0; p1; p2] =>
          r <- Str.int p0 ;;
          g <- Str.int p1 ;;
          b <- Str.int p2 ;;
          x <- Float.int_truediv r 255 ;;
          y <- Float.int_truediv g 255 ;;
          z <- Float.int_truediv b 255 ;;
          Ok (colors ++ [(x, y, z)])%list
      | _ => Ok colors
      end
    else Ok colors.

Fixpoint for_lines (lines : list string) (colors : list color)
  : result (list color) :=
  match lines with
  | [] => Ok colors
  | line :: rest =>
      colors' <- loop_body colors line ;;
      for_lines rest colors'
  end.

Definition default_base_path : string := "plot_utils/colormaps".

Definition load_ncl_rgb_colors (fs : filesystem) (name base_path : string)
  : result (list color) :=
  let path := Os.path_join base_path (name ++ ".rgb") in
  if negb (Os.path_exists fs path)
  then Raise (FileNotFoundError ("Colormap file not found: " ++ path))
  else
    lines <- Os.open_lines fs path ;;
    for_lines lines [].

(** ** The heap

    The heap holds the element buffers of the numpy arrays; an array is a
    header that points into a buffer, so that a view shares the buffer of
    its base array. *)

Module Heap.

Definition addr : Type := nat.

Record heap : Type := {
  floats : list (list float);   (* the float64 buffers *)
  bools : list (list bool)      (* the bool buffers *)
}.

(** Computations on the heap that may raise. *)
Definition M (A : Type) : Type := heap -> result A * heap.

Definition ret {A : Type} (a : A) : M A := fun h => (Ok a, h).

Definition raise {A : Type} (e : exn) : M A := fun h => (Raise e, h).

Definition lift {A : Type} (r : result A) : M A := fun h => (r, h).

Definition bindM {A B : Type} (m : M A) (k : A -> M B) : M B :=
  fun h =>
    match m h with
    | (Ok a, h') => k a h'
    | (Raise e, h') => (Raise e, h')
    end.

Definition slice {A : Type} (off n : nat) (l : list A) : list A :=
  firstn n (skipn off l).

Definition load_floats (base off n : nat) : M (list float) :=
  fun h => (Ok (slice off n (nth base (floats h) [])), h).

Definition load_bools (base off n : nat) : M (list bool) :=
  fun h => (Ok (slice off n (nth base (bools h) [])), h).

Definition alloc_floats (l : list float) : M addr :=
  fun h => (Ok (List.length (floats h)),
            {| floats := floats h ++ [l]; bools := bools h |}).

Definition alloc_bools (l : list bool) : M addr :=
  fun h => (Ok (List.length (bools h)),
            {| floats := floats h; bools := bools h ++ [l] |}).

End Heap.

Notation "x <-- m ;; k" := (Heap.bindM m (fun x => k))
  (at level 61, m at next level, right associativity).

(** ** numpy arrays *)

Module Np.

(** A 4-dimensional float64 array, C-contiguous. *)
Record array4 : Type := {
  base4 : Heap.addr;
  dim0 : nat; dim1 : nat; dim2 : nat; dim3 : nat
}.

(** A 2-dimensional array, float64 or bool by the buffer it is read from,
    possibly a view at [offset2] of a larger buffer. *)
Record array2 : Type := {
  base2 : Heap.addr;
  offset2 : nat;
  rows : nat; cols : nat
}.

(** A 1-dimensional float64 array. *)
Record array1 : Type := {
  base1 : Heap.addr;
  len1 : nat
}.

(** An integer index on an axis of length [n]: negative indices count from
    the end. *)
Definition normalize_index (n : nat) (i : Z) : result nat :=
  if (0 <=? i) && (i <? Z.of_nat n) then Ok (Z.to_nat i)
  else if (- Z.of_nat n <=? i) && (i <? 0) then Ok (Z.to_nat (i + Z.of_nat n))
  else Raise IndexError.

(** [a[i, j]] on a 4-dimensional array: a view, no copy. *)
Definition getitem (a : array4) (i j : Z) : Heap.M array2 :=
  i' <-- Heap.lift (normalize_index (dim0 a) i) ;;
  j' <-- Heap.lift (normalize_index (dim1 a) j) ;;
  Heap.ret {| base2 := base4 a;
              offset2 := (i' * dim1 a + j') * (dim2 a * dim3 a);
              rows := dim2 a; cols := dim3 a |}.

(** [np.isnan(a)]: a new bool array. *)
Definition isnan (a : array2) : Heap.M array2 :=
  xs <-- Heap.load_floats (base2 a) (offset2 a) (rows a * cols a) ;;
  b <-- Heap.alloc_bools (map Float.isnan xs) ;;
  Heap.ret {| base2 := b; offset2 := 0; rows := rows a; cols := cols a |}.

(** [~a] on a bool array: a new bool array. *)
Definition invert (a : array2) : Heap.M array2 :=
  bs <-- Heap.load_bools (base2 a) (offset2 a) (rows a * cols a) ;;
  b <-- Heap.alloc_bools (map negb bs) ;;
  Heap.ret {| base2 := b; offset2 := 0; rows := rows a; cols := cols a |}.

(** The elements of [xs] whose position holds [true] in [mask]. *)
Fixpoint select {A : Type} (xs : list A) (mask : list bool) : list A :=
  match xs, mask with
  | x :: xs', b :: mask' => if b then x :: select xs' mask' else select xs' mask'
  | _, _ => []
  end.

(** [a[mask]] with a bool array of the shape of [a]: a new 1-dimensional
    array of the selected elements in row-major order; [IndexError] when
    the shapes differ. *)
Definition getitem_mask (a mask : array2) : Heap.M array1 :=
  if (rows a =? rows mask)%nat && (cols a =? cols mask)%nat then
    xs <-- Heap.load_floats (base2 a) (offset2 a) (rows a * cols a) ;;
    bs <-- Heap.load_bools (base2 mask) (offset2 mask) (rows mask * cols mask) ;;
    let sel := select xs bs in
    b <-- Heap.alloc_floats sel ;;
    Heap.ret {| base1 := b; len1 := List.length sel |}
  else Heap.raise IndexError.

(** [list(a)] on a 1-dimensional array. *)
Definition tolist (a : array1) : Heap.M (list float) :=
  Heap.load_floats (base1 a) 0 (len1 a).

End Np.

(** ** shapely geometries *)

(** A coordinate pair, [(x, y)]: here [(lon, lat)]. *)
Definition point : Type := float * float.

Inductive geometry : Type :=
| GeometryCollectionEmpty
| Point (p : point)
| LineString (coords : list point)
| Polygon (exterior : list point).

(** ** plot_valid_data_frame.py *)

(** An [xarray.DataArray] of dimensions [eps, ref_time, y, x] with its
    [lat] and [lon] coordinates. *)
Record DataArray : Type := {
  values : Np.array4;
  lat : Np.array2;
  lon : Np.array2
}.

Section ValidDataFrame.

(** [MultiPoint(points).convex_hull], the call into shapely: the geometry
    that it returns, or the exception that it raises. *)
Variable convex_hull : list point -> result geometry.

Definition get_valid_data_frame (data_array : DataArray) (level_idx : Z * Z)
  : Heap.M (option geometry) :=
  data_2d <-- Np.getitem (values data_array) (fst level_idx) (snd level_idx) ;;
  nan_mask <-- Np.isnan data_2d ;;
  valid_mask <-- Np.invert nan_mask ;;
  let lat := lat data_array in
  let lon := lon data_array in
  valid_lat <-- Np.getitem_mask lat valid_mask ;;
  valid_lon <-- Np.getitem_mask lon valid_mask ;;
  if (Np.len1 valid_lat <? 3)%nat then Heap.ret None
  else
    xs <-- Np.tolist valid_lon ;;
    ys <-- Np.tolist valid_lat ;;
    hull <-- Heap.lift (convex_hull (combine xs ys)) ;;
    Heap.ret (Some hull).

End ValidDataFrame.

(** * Vocabulary of the specification *)

(** ** Colormap files *)

Definition chars (s : string) : list ascii := list_ascii_of_string s.

(** The characters of a literal that [int] accepts. *)
Definition literal_char (c : ascii) : bool :=
  Str.isdigit c || Ascii.eqb c "_" || Ascii.eqb c "+" || Ascii.eqb c "-"
  || Str.int_isspace c.

(** A string that is not empty and holds no whitespace. *)
Definition is_token (t : string) : bool :=
  negb (Str.is_empty t) && forallb (fun c => negb (Str.isspace c)) (chars t).

(** The decimal numeral of an integer. *)
Definition decimal (n : Z) : string := NilZero.string_of_int (Z.to_int n).

Definition decimal_check (n : nat) : bool :=
  is_token (decimal (Z.of_nat n))
  && match Str.int (decimal (Z.of_nat n)) with
     | Ok m => m =? Z.of_nat n
     | Raise _ => false
     end.

(** A stripped line that the loop passes over before it looks at the
    tokens: empty, a comment, or the header. *)
Definition is_blank_comment_or_header (s : string) : Prop :=
  s = "" \/ (exists rest, s = "#" ++ rest)
  \/ (exists pre post, s = pre ++ "ncolors" ++ post).

(** What the loop body does with the three tokens of a line. *)
Definition convert (colors : list color) (p0 p1 p2 : string)
  : result (list color) :=
  r <- Str.int p0 ;;
  g <- Str.int p1 ;;
  b <- Str.int p2 ;;
  x <- Float.int_truediv r 255 ;;
  y <- Float.int_truediv g 255 ;;
  z <- Float.int_truediv b 255 ;;
  Ok (colors ++ [(x, y, z)])%list.

(** The text of a file made of the given lines, each ended by a line
    feed. *)
Fixpoint unlines (ls : list string) : string :=
  match ls with
  | [] => ""
  | l :: rest => l ++ String Os.LF (unlines rest)
  end.

(** A file system that holds one colormap file. *)
Definition single_file (path text : string) : filesystem :=
  fun p => if String.eqb p path then Some (File text) else None.


(** A line the loop passes over. *)
Definition skipped_line (line : string) : Prop :=
  is_blank_comment_or_header (Str.strip line)
  \/ List.length (Str.split (Str.strip line)) <> 3%nat.

(** A line of exactly three whitespace-separated integers [r], [g], [b]. *)
Definition triplet_line (line : string) (t : Z * Z * Z) : Prop :=
  let '(r, g, b) := t in
  exists p0 p1 p2,
    Str.split line = [p0; p1; p2]
    /\ Str.int p0 = Ok r /\ Str.int p1 = Ok g /\ Str.int p2 = Ok b.

(** The triplets that the lines of a file hold, in file order. *)
Inductive colormap_lines : list string -> list (Z * Z * Z) -> Prop :=
| cl_nil : colormap_lines [] []
| cl_skip line rest ts :
    skipped_line line -> colormap_lines rest ts ->
    colormap_lines (line :: rest) ts
| cl_triplet line rest t ts :
    triplet_line line t -> colormap_lines rest ts ->
    colormap_lines (line :: rest) (t :: ts).

Definition is_channel (n : Z) : Prop := 0 <= n <= 255.

Definition channels_in_range (t : Z * Z * Z) : Prop :=
  let '(r, g, b) := t in is_channel r /\ is_channel g /\ is_channel b.

(** [c] is [(r / 255, g / 255, b / 255)]. *)
Definition normalized (t : Z * Z * Z) (c : color) : Prop :=
  let '(r, g, b) := t in
  let '(x, y, z) := c in
  Float.int_truediv r 255 = Ok x
  /\ Float.int_truediv g 255 = Ok y
  /\ Float.int_truediv b 255 = Ok z.

(** [0.0 <= x <= 1.0] *)
Definition in_unit_interval (x : float) : Prop :=
  Float.leb Float.zero x = true /\ Float.leb x Float.one = true.

Definition color_in_unit_cube (c : color) : Prop :=
  let '(x, y, z) := c in
  in_unit_interval x /\ in_unit_interval y /\ in_unit_interval z.

(** The float nearest to 128/255: 0.5019607843137255. *)
Definition float_128_255 : float := S754_finite false 4521260802379792 (-53).

Definition channel_check (n : nat) : bool :=
  match Float.int_truediv (Z.of_nat n) 255 with
  | Ok x => Float.leb Float.zero x && Float.leb x Float.one
  | Raise _ => false
  end.

(** Sample colormap files. *)
Definition demo_fs : filesystem :=
  single_file "plot_utils/colormaps/demo.rgb"
    (unlines ["# demo"; "ncolors 2"; ""; "255 0 128"; "  0 255 7 "]).

Definition over_fs : filesystem :=
  single_file "plot_utils/colormaps/over.rgb" (unlines ["300 0 0"]).

Definition under_fs : filesystem :=
  single_file "plot_utils/colormaps/under.rgb" (unlines ["-1 0 0"]).

(** ** Heaps and data arrays *)

(** [h'] holds every buffer of [h], unchanged, and possibly new ones. *)
Definition extends (h h' : Heap.heap) : Prop :=
  (exists fs, Heap.floats h' = Heap.floats h ++ fs)%list
  /\ (exists bs, Heap.bools h' = Heap.bools h ++ bs)%list.

(** A computation that never writes into a buffer that exists. *)
Definition allocates_only {A : Type} (m : Heap.M A) : Prop :=
  forall h, extends h (snd (m h)).

Definition buffer (h : Heap.heap) (a : Heap.addr) : list float :=
  nth a (Heap.floats h) [].

(** The buffers of the data array exist in the heap. *)
Definition allocated (h : Heap.heap) (da : DataArray) : Prop :=
  (Np.base4 (values da) < List.length (Heap.floats h))%nat
  /\ (Np.base2 (lat da) < List.length (Heap.floats h))%nat
  /\ (Np.base2 (lon da) < List.length (Heap.floats h))%nat.

Definition same_shape (a : Np.array2) (r c : nat) : bool :=
  (Np.rows a =? r)%nat && (Np.cols a =? c)%nat.

Definition frame_value (convex_hull : list point -> result geometry)
    (vals lats lons : list float) (da : DataArray) (level_idx : Z * Z)
  : result (option geometry) :=
  let v := values da in
  i <- Np.normalize_index (Np.dim0 v) (fst level_idx) ;;
  j <- Np.normalize_index (Np.dim1 v) (snd level_idx) ;;
  let n := (Np.dim2 v * Np.dim3 v)%nat in
  let data := Heap.slice ((i * Np.dim1 v + j) * n) n vals in
  let mask := map negb (map Float.isnan data) in
  if same_shape (lat da) (Np.dim2 v) (Np.dim3 v) then
    let ys := Np.select
                (Heap.slice (Np.offset2 (lat da))
                            (Np.rows (lat da) * Np.cols (lat da)) lats) mask in
    if same_shape (lon da) (Np.dim2 v) (Np.dim3 v) then
      let xs := Np.select
                  (Heap.slice (Np.offset2 (lon da))
                              (Np.rows (lon da) * Np.cols (lon da)) lons) mask in
      if (List.length ys <? 3)%nat then Ok None
      else hull <- convex_hull (combine xs ys) ;; Ok (Some hull)
    else Raise IndexError
  else Raise IndexError.

(** [a[i, j, y, x]] *)
Definition at4 (h : Heap.heap) (a : Np.array4) (i j y x : nat) : float :=
  nth (((i * Np.dim1 a + j) * Np.dim2 a + y) * Np.dim3 a + x)
      (buffer h (Np.base4 a)) S754_nan.

(** [a[y, x]] *)
Definition at2 (h : Heap.heap) (a : Np.array2) (y x : nat) : float :=
  nth (Np.offset2 a + (y * Np.cols a + x)) (buffer h (Np.base2 a)) S754_nan.

Definition positions (ny nx : nat) : list (nat * nat) :=
  flat_map (fun y => map (fun x => (y, x)) (seq 0 nx)) (seq 0 ny).

(** The pairs [(lon[y, x], lat[y, x])] at the positions where
    [values[i, j, y, x]] is not NaN, in row-major order. *)
Definition valid_points (h : Heap.heap) (da : DataArray) (i j : nat)
  : list point :=
  flat_map
    (fun '(y, x) =>
       if Float.isnan (at4 h (values da) i j y x) then []
       else [(at2 h (lon da) y x, at2 h (lat da) y x)])
    (positions (Np.dim2 (values da)) (Np.dim3 (values da))).

(** The invariants of a data array of dimensions [eps, ref_time, y, x]
    whose coordinates [lat] and [lon] have dimensions [y, x]. *)
Record well_formed (h : Heap.heap) (da : DataArray) : Prop := {
  wf_allocated : allocated h da;
  wf_values :
    List.length (buffer h (Np.base4 (values da)))
    = (Np.dim0 (values da) * Np.dim1 (values da)
       * (Np.dim2 (values da) * Np.dim3 (values da)))%nat;
  wf_lat_rows : Np.rows (lat da) = Np.dim2 (values da);
  wf_lat_cols : Np.cols (lat da) = Np.dim3 (values da);
  wf_lat_bounds :
    (Np.offset2 (lat da) + Np.rows (lat da) * Np.cols (lat da)
     <= List.length (buffer h (Np.base2 (lat da))))%nat;
  wf_lon_rows : Np.rows (lon da) = Np.dim2 (values da);
  wf_lon_cols : Np.cols (lon da) = Np.dim3 (values da);
  wf_lon_bounds :
    (Np.offset2 (lon da) + Np.rows (lon da) * Np.cols (lon da)
     <= List.length (buffer h (Np.base2 (lon da))))%nat
}.

(** The position [k] that the Python index [i] denotes on an axis of
    length [n]. *)
Definition index_of (n : nat) (i : Z) (k : nat) : Prop :=
  (0 <= i < Z.of_nat n /\ k = Z.to_nat i)
  \/ (- Z.of_nat n <= i < 0 /\ k = Z.to_nat (i + Z.of_nat n)).

(** What the call returns on a list of valid points. *)
Definition hull_or_none (convex_hull : list point -> result geometry)
    (pts : list point) : result (option geometry) :=
  if (List.length pts <? 3)%nat then Ok None
  else hull <- convex_hull pts ;; Ok (Some hull).

(** ** Plane geometry on the coordinates *)

Module Geo.

#[local] Open Scope Q_scope.

Definition finite (x : float) : bool :=
  match x with
  | S754_zero _ | S754_finite _ _ _ => true
  | S754_infinity _ | S754_nan => false
  end.

(** The number that a finite float denotes. *)
Definition to_Q (x : float) : Q :=
  match x with
  | S754_finite s m e =>
      (if s then - inject_Z (Zpos m) else inject_Z (Zpos m)) * Qpower 2 e
  | _ => 0
  end.

Definition px (p : point) : Q := to_Q (fst p).
Definition py (p : point) : Q := to_Q (snd p).

Definition finite_point (p : point) : Prop :=
  finite (fst p) = true /\ finite (snd p) = true.

(** Twice the signed area of the triangle [a b c]. *)
Definition cross (a b c : point) : Q :=
  (px b - px a) * (py c - py a) - (py b - py a) * (px c - px a).

(** [(v - a) . (b - v)] *)
Definition dot (a b v : point) : Q :=
  (px v - px a) * (px b - px v) + (py v - py a) * (py b - py v).

(** [v] lies on the segment from [a] to [b] and is neither end. *)
Definition strictly_between (a b v : point) : Prop :=
  cross a b v == 0 /\ 0 < dot a b v.

Definition Qltb (x y : Q) : bool := negb (Qle_bool y x).

Definition strictly_betweenb (a b v : point) : bool :=
  Qeq_bool (cross a b v) 0 && Qltb 0 (dot a b v).

(** [v] lies inside the triangle [a b c], off its sides. *)
Definition strictly_insideb (a b c v : point) : bool :=
  (Qltb 0 (cross a b v) && Qltb 0 (cross b c v) && Qltb 0 (cross c a v))
  || (Qltb (cross a b v) 0 && Qltb (cross b c v) 0 && Qltb (cross c a v) 0).

Definition same_place (p q : point) : bool :=
  Qeq_bool (px p) (px q) && Qeq_bool (py p) (py q).

(** The points of [pts] without those that repeat an earlier place. *)
Fixpoint distinct (seen pts : list point) : list point :=
  match pts with
  | [] => []
  | p :: rest =>
      if existsb (same_place p) seen then distinct seen rest
      else p :: distinct (p :: seen) rest
  end.

Definition some_triangle (pts : list point) : bool :=
  existsb (fun a => existsb (fun b => existsb (fun c =>
    negb (Qeq_bool (cross a b c) 0)) pts) pts) pts.

(** [v] is an extreme point of [pts]: it is neither strictly between two
    of them nor strictly inside a triangle of three of them. *)
Definition extreme (pts : list point) (v : point) : bool :=
  negb (existsb (fun a => existsb (fun b => strictly_betweenb a b v) pts) pts)
  && negb (existsb (fun a => existsb (fun b => existsb (fun c =>
       strictly_insideb a b c v) pts) pts) pts).

(** A convex hull by exhaustive search: a polygon on the extreme points
    when three of the points make a triangle, and otherwise a line on the
    two ends, a point, or the empty collection.  The vertices come in the
    order of [pts]. *)
Definition brute_hull_geometry (pts : list point) : geometry :=
  let vertices := filter (extreme pts) (distinct [] pts) in
  if some_triangle pts then Polygon vertices
  else match distinct [] pts with
       | [] => GeometryCollectionEmpty
       | [p] => Point p
       | _ => LineString vertices
       end.

Definition finite_pointb (p : point) : bool :=
  finite (fst p) && finite (snd p).

(** The exhaustive search as a hull: like the hull of shapely, it raises
    [GEOSException] when a coordinate is NaN or infinite. *)
Definition brute_hull (pts : list point) : result geometry :=
  if forallb finite_pointb pts then Ok (brute_hull_geometry pts)
  else Raise GEOSException.

(** What the theorems on the shape of the hull assume of
    [MultiPoint(points).convex_hull]: on finite points that are not all on
    one line it is a polygon; its vertices are among the points, and none
    of them lies strictly between two of the points. *)
Definition hull_contract (convex_hull : list point -> result geometry) : Prop :=
  forall pts,
    Forall finite_point pts ->
    (exists a b c, In a pts /\ In b pts /\ In c pts /\ ~ cross a b c == 0) ->
    exists ring,
      convex_hull pts = Ok (Polygon ring)
      /\ forall v, In v ring ->
           In v pts
           /\ forall a b, In a pts -> In b pts -> ~ strictly_between a b v.

(** What the theorems on the presence of a hull assume of
    [MultiPoint(points).convex_hull]: on finite points it returns a
    geometry. *)
Definition hull_defined_on_finite (convex_hull : list point -> result geometry)
  : Prop :=
  forall pts, Forall finite_point pts -> exists g, convex_hull pts = Ok g.

Fixpoint Qmin_list (d : Q) (l : list Q) : Q :=
  match l with
  | [] => d
  | x :: rest => Qmin_list (if Qle_bool x d then x else d) rest
  end.

Fixpoint Qmax_list (d : Q) (l : list Q) : Q :=
  match l with
  | [] => d
  | x :: rest => Qmax_list (if Qle_bool d x then x else d) rest
  end.

(** The least and the greatest of the numbers of a list of floats. *)
Definition least (l : list float) : Q :=
  match map to_Q l with
  | [] => 0
  | x :: rest => Qmin_list x rest
  end.

Definition greatest (l : list float) : Q :=
  match map to_Q l with
  | [] => 0
  | x :: rest => Qmax_list x rest
  end.

(** [p] is a corner of the bounding extent of the grid of longitudes [xs]
    and latitudes [ys]. *)
Definition is_corner (xs ys : list float) (p : point) : Prop :=
  (px p == least xs \/ px p == greatest xs)
  /\ (py p == least ys \/ py p == greatest ys).

End Geo.

(** ** Grids *)

(** No value of the slice [values[i, j]] is missing. *)
Definition entirely_valid (h : Heap.heap) (da : DataArray) (i j : nat) : Prop :=
  forall y x,
    (y < Np.dim2 (values da))%nat -> (x < Np.dim3 (values da))%nat ->
    Float.isnan (at4 h (values da) i j y x) = false.

(** [lon] and [lat] make the rectangular grid of the longitudes [xs], one
    per column, and the latitudes [ys], one per row. *)
Definition rectangular_grid (h : Heap.heap) (da : DataArray)
    (xs ys : list float) : Prop :=
  List.length xs = Np.dim3 (values da)
  /\ List.length ys = Np.dim2 (values da)
  /\ Forall (fun x => Geo.finite x = true) xs
  /\ Forall (fun y => Geo.finite y = true) ys
  /\ forall y x,
       (y < Np.dim2 (values da))%nat -> (x < Np.dim3 (values da))%nat ->
       at2 h (lon da) y x = nth x xs S754_nan
       /\ at2 h (lat da) y x = nth y ys S754_nan.

(** The list holds two different numbers. *)
Definition two_values (l : list float) : Prop :=
  exists a b, In a l /\ In b l /\ ~ (Geo.to_Q a == Geo.to_Q b)%Q.

(** ** Sample grids *)

Definition nan : float := S754_nan.

Definition mk_grid (vals lats lons : list float) (ny nx : nat)
  : Heap.heap * DataArray :=
  ({| Heap.floats := [vals; lats; lons]; Heap.bools := [] |},
   {| values := {| Np.base4 := 0%nat; Np.dim0 := 1%nat; Np.dim1 := 1%nat;
                   Np.dim2 := ny; Np.dim3 := nx |};
      lat := {| Np.base2 := 1%nat; Np.offset2 := 0%nat;
                Np.rows := ny; Np.cols := nx |};
      lon := {| Np.base2 := 2%nat; Np.offset2 := 0%nat;
                Np.rows := ny; Np.cols := nx |} |}).

Definition num (n : Z) : float := Float.of_int n.

(** Two rows and two columns, the value at [0, 1] missing. *)
Definition grid_2x2 : Heap.heap * DataArray :=
  mk_grid [num 280; nan; num 281; num 282]
          [num 46; num 46; num 47; num 47]
          [num 7; num 8; num 7; num 8] 2%nat 2%nat.

(** Two rows and two columns, only the first row valid. *)
Definition grid_2x2_sparse : Heap.heap * DataArray :=
  mk_grid [num 280; num 281; nan; nan]
          [num 46; num 46; num 47; num 47]
          [num 7; num 8; num 7; num 8] 2%nat 2%nat.

(** One row of three columns, all valid. *)
Definition grid_1x3 : Heap.heap * DataArray :=
  mk_grid [num 280; num 281; num 282] [num 46; num 46; num 46] [num 7; num 8; num 9] 1%nat 3%nat.

(** One row of two columns, all valid. *)
Definition grid_1x2 : Heap.heap * DataArray :=
  mk_grid [num 280; num 281] [num 46; num 46] [num 7; num 8] 1%nat 2%nat.

(** Two rows and three columns, all valid. *)
Definition grid_2x3 : Heap.heap * DataArray :=
  mk_grid [num 280; num 281; num 282; num 283; num 284; num 285]
          [num 46; num 46; num 46; num 47; num 47; num 47]
          [num 7; num 8; num 9; num 7; num 8; num 9] 2%nat 3%nat.

(** ** Further vocabulary *)

(** What the loop body does with the tokens of a line. *)
Definition body_on_tokens (colors : list color) (parts : list string)
  : result (list color) :=
  match parts with
  | [] => Ok colors
  | t :: _ =>
      if Str.startswith "#" t || existsb (Str.contains "ncolors") parts
      then Ok colors
      else match parts with
           | [p0; p1; p2] => convert colors p0 p1 p2
           | _ => Ok colors
           end
  end.

(** The line holds neither a line feed nor a carriage return. *)
Definition newline_free (l : string) : bool :=
  forallb (fun c => negb (Ascii.eqb c Os.LF || Ascii.eqb c Os.CR)) (chars l).

(** The text of the lines [ls], each ended by [eol]. *)
Fixpoint join_lines (eol : string) (ls : list string) : string :=
  match ls with
  | [] => ""
  | l :: rest => l ++ eol ++ join_lines eol rest
  end.

(** The three line endings: line feed, carriage return and line feed,
    carriage return. *)
Definition is_eol (eol : string) : Prop :=
  eol = String Os.LF "" \/ eol = String Os.CR (String Os.LF "")
  \/ eol = String Os.CR "".

(** The text is empty or ends with a line feed. *)
Definition ends_lines (text : string) : Prop :=
  text = "" \/ exists u, text = u ++ String Os.LF "".

(** A file system that holds the given files, each a path and a text. *)
Fixpoint files_fs (files : list (string * string)) : filesystem :=
  fun p =>
    match files with
    | [] => None
    | (q, text) :: rest =>
        if String.eqb p q then Some (File text) else files_fs rest p
    end.

(** Sample files: two colormaps, the two put end to end, and a colormap
    with a line that is not made of integers. *)
Definition sample_fs : filesystem :=
  files_fs
    [("plot_utils/colormaps/warm.rgb", unlines ["ncolors 2"; "255 0 0"; "255 128 0"]);
     ("plot_utils/colormaps/cold.rgb", unlines ["# cold"; "0 0 255"]);
     ("plot_utils/colormaps/both.rgb",
      unlines ["ncolors 2"; "255 0 0"; "255 128 0"] ++ unlines ["# cold"; "0 0 255"]);
     ("plot_utils/colormaps/broken.rgb",
      unlines ["ncolors 2"; "255 0 0"; "255 128 0"]
      ++ "0 0.5 255" ++ String Os.LF (unlines ["0 0 255"]))].

Definition increasing_check (a b : nat) : bool :=
  (b <=? a)%nat
  || match Float.int_truediv (Z.of_nat a) 255, Float.int_truediv (Z.of_nat b) 255 with
     | Ok x, Ok y => Float.ltb x y
     | _, _ => false
     end.



(** Two rows and two columns, all values valid, the latitude at [0, 1]
    being NaN. *)
Definition grid_2x2_nan_lat : Heap.heap * DataArray :=
  mk_grid [num 280; num 281; num 282; num 283]
          [num 46; nan; num 47; num 47]
          [num 7; num 8; num 7; num 8] 2%nat 2%nat.

(** The grid of two rows and two columns with other values at the valid
    places and another longitude at the missing place. *)
Definition grid_2x2_other : Heap.heap * DataArray :=
  mk_grid [num 1; nan; num 2; num 3]
          [num 46; num 46; num 47; num 47]
          [num 7; num 99; num 7; num 8] 2%nat 2%nat.

(** * Properties of the colormap loader *)

(** ** Strings *)

Section StrFacts.

Lemma chars_app (s t : string) : chars (s ++ t) = (chars s ++ chars t)%list.
Proof.
  induction s as [|c s IH]; simpl; [reflexivity|].
  unfold chars in *. simpl. now rewrite IH.
Qed.

Lemma app_empty_r (s : string) : s ++ "" = s.
Proof. induction s as [|c s IH]; simpl; congruence. Qed.

Lemma app_assoc_str (s t u : string) : (s ++ t) ++ u = s ++ (t ++ u).
Proof. induction s as [|c s IH]; simpl; congruence. Qed.

Lemma is_empty_true (s : string) : Str.is_empty s = true <-> s = "".
Proof. destruct s; simpl; split; congruence. Qed.

Lemma startswith_spec (p s : string) :
  Str.startswith p s = true <-> exists rest, s = p ++ rest.
Proof.
  revert s. induction p as [|a p IH]; intros s; simpl.
  - split; [intros _; now exists s | reflexivity].
  - destruct s as [|b s].
    + split; [discriminate | intros [rest H]; discriminate].
    + rewrite andb_true_iff, Ascii.eqb_eq, IH. split.
      * intros [-> [rest ->]]. now exists rest.
      * intros [rest H]. injection H as -> ->. split; [reflexivity | now exists rest].
Qed.

Lemma contains_spec (p s : string) :
  Str.contains p s = true <-> exists pre post, s = pre ++ p ++ post.
Proof.
  induction s as [|c s IH].
  - simpl. rewrite orb_false_r, startswith_spec. split.
    + intros [rest H]. now exists "", rest.
    + intros [pre [post H]]. destruct pre; [now exists post | discriminate].
  - change (Str.contains p (String c s))
      with (Str.startswith p (String c s) || Str.contains p s).
    rewrite orb_true_iff, startswith_spec, IH. split.
    + intros [[rest H] | [pre [post H]]].
      * now exists "", rest.
      * exists (String c pre), post. simpl. now rewrite H.
    + intros [pre [post H]]. destruct pre as [|a pre]; simpl in H.
      * left. now exists post.
      * right. injection H as _ H. now exists pre, post.
Qed.

(** *** [strip] *)

Variable sp : ascii -> bool.

Lemma lstrip_with_keeps (s : string) (c : ascii) :
  In c (chars s) -> sp c = true \/ In c (chars (Str.lstrip_with sp s)).
Proof.
  induction s as [|a s IH]; simpl; [tauto|].
  intros [<- | H].
  - destruct (sp a) eqn:E; [now left | right; now left].
  - destruct (sp a) eqn:E; [auto | right; now right].
Qed.

Lemma rstrip_with_keeps (s : string) (c : ascii) :
  In c (chars s) -> sp c = true \/ In c (chars (Str.rstrip_with sp s)).
Proof.
  induction s as [|a s IH]; simpl; [tauto|].
  intros [<- | H].
  - destruct (Str.rstrip_with sp s); [|right; now left].
    destruct (sp a) eqn:E; [now left | right; now left].
  - destruct (IH H) as [Hs | Hin]; [now left|].
    destruct (Str.rstrip_with sp s); [destruct Hin | right; now right].
Qed.

Lemma strip_with_keeps (s : string) (c : ascii) :
  In c (chars s) -> sp c = true \/ In c (chars (Str.strip_with sp s)).
Proof.
  intros H. unfold Str.strip_with.
  destruct (lstrip_with_keeps s c H) as [Hs | Hl]; [now left|].
  now apply rstrip_with_keeps.
Qed.

(** [lstrip_with] removes a run of [sp] characters from the left end and
    stops at the first character that is not one. *)
Lemma lstrip_with_spec (s : string) :
  exists l,
    s = l ++ Str.lstrip_with sp s
    /\ forallb sp (chars l) = true
    /\ match Str.lstrip_with sp s with
       | EmptyString => True
       | String c _ => sp c = false
       end.
Proof.
  induction s as [|a s [l [E [Hl Hc]]]]; simpl.
  - exists "". repeat split.
  - destruct (sp a) eqn:Ea.
    + exists (String a l). simpl. rewrite <- E.
      repeat split; [|assumption]. unfold chars in *. simpl. now rewrite Ea.
    + exists "". repeat split. assumption.
Qed.

(** [rstrip_with] removes a run of [sp] characters from the right end, and
    what it leaves does not end with one. *)
Lemma rstrip_with_spec (s : string) :
  exists r,
    s = Str.rstrip_with sp s ++ r
    /\ forallb sp (chars r) = true
    /\ forall t c, Str.rstrip_with sp s = t ++ String c "" -> sp c = false.
Proof.
  induction s as [|a s [r [E [Hr Hc]]]].
  - exists "". repeat split. intros [|b t] c H; discriminate.
  - cbn [Str.rstrip_with]. destruct (Str.rstrip_with sp s) as [|b u] eqn:R.
    + simpl in E. subst r. destruct (sp a) eqn:Ea.
      * exists (String a s). repeat split.
        -- unfold chars in *. simpl. now rewrite Ea.
        -- intros [|b t] c H; discriminate.
      * exists s. repeat split; [assumption|].
        intros [|b [|b' t]] c H; simpl in H; try discriminate.
        now injection H as <-.
    + exists r. split; [simpl in *; now rewrite E at 1|].
      split; [assumption|].
      intros [|b' t] c H; simpl in H; [discriminate|].
      injection H as _ H. now apply (Hc t c).
Qed.

End StrFacts.

(** [strip] removes whitespace from both ends, and what it leaves neither
    starts nor ends with whitespace. *)
Lemma strip_spec (s : string) :
  exists l r,
    s = l ++ Str.strip s ++ r
    /\ forallb Str.isspace (chars l) = true
    /\ forallb Str.isspace (chars r) = true
    /\ (forall c t, Str.strip s = String c t -> Str.isspace c = false)
    /\ (forall t c, Str.strip s = t ++ String c "" -> Str.isspace c = false).
Proof.
  unfold Str.strip, Str.strip_with.
  destruct (lstrip_with_spec Str.isspace s) as [l [El [Hl Hfirst]]].
  destruct (rstrip_with_spec Str.isspace (Str.lstrip_with Str.isspace s))
    as [r [Er [Hr Hlast]]].
  exists l, r. split; [now rewrite <- Er|].
  split; [assumption|]. split; [assumption|]. split; [|assumption].
  intros c t E. rewrite E in Er.
  destruct (Str.lstrip_with Str.isspace s) as [|c' u]; [discriminate|].
  simpl in Er. now injection Er as ->.
Qed.

(** *** [split] *)

Lemma split_from_lstrip (s : string) :
  Str.split_from "" (Str.lstrip_with Str.isspace s) = Str.split_from "" s.
Proof.
  induction s as [|c s IH]; simpl; [reflexivity|].
  destruct (Str.isspace c) eqn:E; simpl; [assumption | now rewrite E].
Qed.

Lemma split_from_step (c : ascii) (s1 s2 : string) :
  (forall tok, Str.split_from tok s1 = Str.split_from tok s2) ->
  forall tok, Str.split_from tok (String c s1) = Str.split_from tok (String c s2).
Proof. intros H tok. simpl. now rewrite !H. Qed.

Lemma split_from_rstrip (s tok : string) :
  Str.split_from tok (Str.rstrip_with Str.isspace s) = Str.split_from tok s.
Proof.
  revert tok. induction s as [|c s IH]; intros tok; [reflexivity|].
  cbn [Str.rstrip_with].
  destruct (Str.rstrip_with Str.isspace s) as [|a r] eqn:R.
  - destruct (Str.isspace c) eqn:E; simpl; rewrite E.
    + rewrite <- IH. reflexivity.
    + now rewrite <- IH.
  - now apply split_from_step.
Qed.

(** Stripping a line first does not change its tokens. *)
Lemma split_strip (s : string) : Str.split (Str.strip s) = Str.split s.
Proof.
  unfold Str.split, Str.strip, Str.strip_with.
  now rewrite split_from_rstrip, split_from_lstrip.
Qed.

(** Every character of a line that is not whitespace is in one of its
    tokens. *)
Lemma split_from_covers (s tok : string) (c : ascii) :
  Str.isspace c = false ->
  In c (chars tok) \/ In c (chars s) ->
  exists t, In t (Str.split_from tok s) /\ In c (chars t).
Proof.
  intros Hc. revert tok. induction s as [|a s IH]; intros tok H; simpl.
  - destruct H as [H | []]. destruct tok; [destruct H|].
    exists (String a tok). split; [now left | assumption].
  - destruct (Str.isspace a) eqn:E.
    + destruct H as [H | [<- | H]]; [| congruence |].
      * destruct tok as [|b tok]; [destruct H|]. simpl.
        exists (String b tok). split; [now left | assumption].
      * destruct (IH "" (or_intror H)) as [t [Ht Hin]].
        exists t. split; [|assumption].
        destruct (Str.is_empty tok); [assumption | now right].
    + apply IH. rewrite chars_app. simpl.
      destruct H as [H | [<- | H]].
      * left. apply in_or_app. now left.
      * left. apply in_or_app. right. now left.
      * now right.
Qed.

Lemma split_from_token (t tok rest : string) :
  forallb (fun c => negb (Str.isspace c)) (chars t) = true ->
  Str.split_from tok (t ++ rest) = Str.split_from (tok ++ t) rest.
Proof.
  revert tok. induction t as [|c t IH]; intros tok H.
  - now rewrite app_empty_r.
  - unfold chars in H. simpl in H. apply andb_true_iff in H.
    destruct H as [Hc Ht]. apply negb_true_iff in Hc.
    simpl. rewrite Hc, (IH _ Ht), app_assoc_str. reflexivity.
Qed.

Lemma split_from_space (tok rest : string) :
  Str.is_empty tok = false ->
  Str.split_from tok (String " " rest) = tok :: Str.split_from "" rest.
Proof. intros H. simpl. now rewrite H. Qed.

(** Three tokens with one space between them split into the three. *)
Lemma split_three (t0 t1 t2 : string) :
  is_token t0 = true -> is_token t1 = true -> is_token t2 = true ->
  Str.split (t0 ++ " " ++ t1 ++ " " ++ t2) = [t0; t1; t2].
Proof.
  unfold is_token. intros H0 H1 H2.
  apply andb_true_iff in H0, H1, H2.
  destruct H0 as [E0 S0], H1 as [E1 S1], H2 as [E2 S2].
  apply negb_true_iff in E0, E1, E2.
  unfold Str.split.
  rewrite (split_from_token t0 "" _ S0). cbn [append].
  rewrite (split_from_space t0 _ E0).
  rewrite (split_from_token t1 "" _ S1). cbn [append].
  rewrite (split_from_space t1 _ E1).
  rewrite <- (app_empty_r t2) at 1.
  rewrite (split_from_token t2 "" _ S2). cbn [append Str.split_from].
  now rewrite E2.
Qed.

(** *** [int] *)

Lemma parse_digits_chars (s : string) (prev : bool) (acc : Z) (n : nat) r :
  Str.parse_digits prev acc n s = Some r ->
  forall c, In c (chars s) -> Str.isdigit c || Ascii.eqb c "_" = true.
Proof.
  revert prev acc n. induction s as [|a s IH]; intros prev acc n H c Hin.
  - destruct Hin.
  - simpl in H. destruct Hin as [<- | Hin].
    + destruct (Str.isdigit a); [reflexivity|].
      destruct (Ascii.eqb a "_"); [reflexivity | discriminate].
    + destruct (Str.isdigit a); [now apply (IH _ _ _ H)|].
      destruct (Ascii.eqb a "_"); [|discriminate].
      destruct prev; [now apply (IH _ _ _ H) | discriminate].
Qed.

Lemma split_sign_chars (s body : string) (neg : bool) (c : ascii) :
  Str.split_sign s = (neg, body) ->
  In c (chars s) ->
  Ascii.eqb c "+" || Ascii.eqb c "-" = true \/ In c (chars body).
Proof.
  destruct s as [|a s]; simpl; [tauto|].
  destruct (Ascii.eqb a "-") eqn:Em.
  - intros [= _ <-] [<- | H]; [left; now rewrite Em, orb_true_r | now right].
  - destruct (Ascii.eqb a "+") eqn:Ep.
    + intros [= _ <-] [<- | H]; [left; now rewrite Ep | now right].
    + intros [= _ <-] H. now right.
Qed.

Lemma int_ok_chars (s : string) (v : Z) :
  Str.int s = Ok v -> forall c, In c (chars s) -> literal_char c = true.
Proof.
  unfold Str.int, literal_char. intros H c Hin.
  destruct (strip_with_keeps Str.int_isspace s c Hin) as [Hs | Hb].
  { rewrite Hs. now rewrite !orb_true_r. }
  destruct (Str.split_sign _) as [neg body] eqn:S.
  destruct (split_sign_chars _ _ _ _ S Hb) as [Hsg | Hbody].
  - apply orb_true_iff in Hsg. destruct Hsg as [-> | ->]; now rewrite ?orb_true_r.
  - destruct (Str.parse_digits false 0 0 body) as [r|] eqn:P; [|discriminate].
    rewrite (parse_digits_chars _ _ _ _ _ P c Hbody). reflexivity.
Qed.

(** ** The loop body *)

Lemma skip_test_spec (s : string) :
  Str.is_empty s || Str.startswith "#" s || Str.contains "ncolors" s = true
  <-> is_blank_comment_or_header s.
Proof.
  unfold is_blank_comment_or_header.
  rewrite !orb_true_iff, is_empty_true, startswith_spec, contains_spec. tauto.
Qed.


Lemma loop_body_unfold (colors : list color) (line : string) :
  loop_body colors line =
  let s := Str.strip line in
  if Str.is_empty s || Str.startswith "#" s || Str.contains "ncolors" s
  then Ok colors
  else match Str.split s with
       | [p0; p1; p2] => convert colors p0 p1 p2
       | _ => Ok colors
       end.
Proof.
  unfold loop_body. cbv zeta.
  destruct (_ || _ || _); [reflexivity|].
  destruct (Str.split (Str.strip line)) as [|p0 [|p1 [|p2 [|p3 l]]]]; reflexivity.
Qed.


Lemma loop_body_passes (colors : list color) (line : string) :
  is_blank_comment_or_header (Str.strip line)
  \/ List.length (Str.split (Str.strip line)) <> 3%nat ->
  loop_body colors line = Ok colors.
Proof.
  rewrite loop_body_unfold. cbv zeta. intros [H | H].
  - apply skip_test_spec in H. now rewrite H.
  - destruct (_ || _ || _); [reflexivity|].
    destruct (Str.split (Str.strip line)) as [|p0 [|p1 [|p2 [|p3 l]]]];
      try reflexivity. now contradiction H.
Qed.

(** ** Well-formed colormap files *)

Lemma all_channels_checked : forallb channel_check (seq 0 256) = true.
Proof. vm_compute. reflexivity. Qed.

Lemma channel_in_unit (n : Z) :
  is_channel n ->
  exists x, Float.int_truediv n 255 = Ok x /\ in_unit_interval x.
Proof.
  intros [Hlo Hhi].
  assert (Hin : In (Z.to_nat n) (seq 0 256)) by (apply in_seq; lia).
  pose proof (proj1 (forallb_forall _ _) all_channels_checked _ Hin) as H.
  unfold channel_check in H. rewrite Z2Nat.id in H by assumption.
  destruct (Float.int_truediv n 255) as [x|]; [|discriminate].
  apply andb_true_iff in H. now exists x.
Qed.

Lemma not_literal_hash : literal_char "#" = false.
Proof. reflexivity. Qed.

Lemma not_literal_n : literal_char "n" = false.
Proof. reflexivity. Qed.

(** A line of three integers is neither blank, nor a comment, nor the
    header. *)
Lemma triplet_line_not_header (line : string) (t : Z * Z * Z) :
  triplet_line line t -> ~ is_blank_comment_or_header (Str.strip line).
Proof.
  destruct t as [[r g] b]. intros [p0 [p1 [p2 [S [H0 [H1 H2]]]]]].
  rewrite <- split_strip in S. set (s := Str.strip line) in *.
  assert (L : forall c, Str.isspace c = false -> literal_char c = false ->
                        ~ In c (chars s)).
  { intros c Hsp Hl Hin.
    destruct (split_from_covers s "" c Hsp (or_intror Hin)) as [t [Ht Hc]].
    fold (Str.split s) in Ht. rewrite S in Ht.
    assert (literal_char c = true); [|congruence].
    destruct Ht as [<- | [<- | [<- | []]]]; eauto using int_ok_chars. }
  intros [E | [[rest E] | [pre [post E]]]].
  - rewrite E in S. discriminate.
  - apply (L "#"%char eq_refl not_literal_hash). rewrite E. now left.
  - apply (L "n"%char eq_refl not_literal_n). rewrite E, chars_app.
    apply in_or_app. right. now left.
Qed.

Lemma loop_body_triplet (colors : list color) (line : string) (t : Z * Z * Z) :
  triplet_line line t -> channels_in_range t ->
  exists c, loop_body colors line = Ok (colors ++ [c])%list
            /\ normalized t c /\ color_in_unit_cube c.
Proof.
  intros T R. pose proof (triplet_line_not_header line t T) as N.
  rewrite <- skip_test_spec in N. apply not_true_is_false in N.
  destruct t as [[r g] b]. destruct T as [p0 [p1 [p2 [S [H0 [H1 H2]]]]]].
  destruct R as [Rr [Rg Rb]].
  destruct (channel_in_unit r Rr) as [x [Hx Ux]].
  destruct (channel_in_unit g Rg) as [y [Hy Uy]].
  destruct (channel_in_unit b Rb) as [z [Hz Uz]].
  exists (x, y, z). rewrite loop_body_unfold. cbv zeta.
  rewrite N, split_strip, S. unfold convert.
  rewrite H0, H1, H2. cbn [bind]. rewrite Hx, Hy, Hz. cbn [bind].
  unfold normalized, color_in_unit_cube. tauto.
Qed.

Lemma all_decimals_checked : forallb decimal_check (seq 0 256) = true.
Proof. vm_compute. reflexivity. Qed.

Lemma decimal_channel (n : Z) :
  is_channel n -> is_token (decimal n) = true /\ Str.int (decimal n) = Ok n.
Proof.
  intros [Hlo Hhi].
  assert (Hin : In (Z.to_nat n) (seq 0 256)) by (apply in_seq; lia).
  pose proof (proj1 (forallb_forall _ _) all_decimals_checked _ Hin) as H.
  unfold decimal_check in H. rewrite Z2Nat.id in H by assumption.
  apply andb_true_iff in H. destruct H as [Ht Hi]. split; [assumption|].
  destruct (Str.int (decimal n)) as [m|]; [|discriminate].
  apply Z.eqb_eq in Hi. now subst m.
Qed.

(** The decimal numerals of three channels, one space apart, make a
    triplet line. *)
Lemma decimal_triplet_line (r g b : Z) :
  is_channel r -> is_channel g -> is_channel b ->
  triplet_line (decimal r ++ " " ++ decimal g ++ " " ++ decimal b) (r, g, b).
Proof.
  intros Hr Hg Hb.
  destruct (decimal_channel r Hr) as [Tr Ir].
  destruct (decimal_channel g Hg) as [Tg Ig].
  destruct (decimal_channel b Hb) as [Tb Ib].
  exists (decimal r), (decimal g), (decimal b).
  split; [now apply split_three | now repeat split].
Qed.

Lemma for_lines_colormap (lines : list string) (ts : list (Z * Z * Z)) :
  colormap_lines lines ts -> Forall channels_in_range ts ->
  forall acc, exists cs,
    for_lines lines acc = Ok (acc ++ cs)%list
    /\ Forall2 normalized ts cs /\ Forall color_in_unit_cube cs.
Proof.
  induction 1 as [|line rest ts Hskip _ IH|line rest t ts Ht _ IH];
    intros R acc.
  - exists []. rewrite app_nil_r. repeat constructor.
  - destruct (IH R acc) as [cs [Hcs P]]. exists cs. split; [|exact P].
    simpl. now rewrite (loop_body_passes acc line Hskip).
  - inversion R as [|? ? Rt Rts]; subst.
    destruct (loop_body_triplet acc line t Ht Rt) as [c [Hc [Nc Uc]]].
    destruct (IH Rts (acc ++ [c])%list) as [cs [Hcs [Ncs Ucs]]].
    exists (c :: cs). simpl. rewrite Hc. cbn [bind]. rewrite Hcs.
    rewrite <- app_assoc. split; [reflexivity|].
    split; now constructor.
Qed.

(** ** Errors *)

Lemma int_raises (s : string) (e : exn) : Str.int s = Raise e -> e = ValueError.
Proof.
  unfold Str.int. destruct (Str.split_sign _) as [neg body].
  destruct (Str.parse_digits false 0 0 body) as [[v n]|]; [|congruence].
  destruct (_ <? _)%nat; congruence.
Qed.

Lemma int_truediv_255_raises (n : Z) (e : exn) :
  Float.int_truediv n 255 = Raise e -> e = OverflowError.
Proof.
  unfold Float.int_truediv. simpl (255 =? 0).
  destruct (SFdiv _ _ _ _); congruence.
Qed.

Lemma convert_raises (colors : list color) (p0 p1 p2 : string) (e : exn) :
  convert colors p0 p1 p2 = Raise e -> e = ValueError \/ e = OverflowError.
Proof.
  unfold convert, bind. intros H.
  repeat match type of H with
         | match ?m with Ok _ => _ | Raise _ => _ end = _ =>
             let E := fresh "E" in
             destruct m eqn:E;
             [| injection H as <-;
                first [ left; now apply int_raises in E
                      | right; now apply int_truediv_255_raises in E ] ]
         end.
  discriminate.
Qed.

Lemma loop_body_raises (colors : list color) (line : string) (e : exn) :
  loop_body colors line = Raise e -> e = ValueError \/ e = OverflowError.
Proof.
  rewrite loop_body_unfold. cbv zeta.
  destruct (_ || _ || _); [discriminate|].
  destruct (Str.split _) as [|p0 [|p1 [|p2 [|p3 l]]]]; try discriminate.
  apply convert_raises.
Qed.

Lemma for_lines_raises (lines : list string) (colors : list color) (e : exn) :
  for_lines lines colors = Raise e -> e = ValueError \/ e = OverflowError.
Proof.
  revert colors. induction lines as [|line rest IH]; intros colors; simpl.
  - discriminate.
  - destruct (loop_body colors line) as [colors'|e'] eqn:B; cbn [bind].
    + apply IH.
    + intros [= <-]. now apply loop_body_raises in B.
Qed.

Lemma startswith_sep_rgb (name : string) :
  Str.startswith "/" (name ++ ".rgb") = Str.startswith "/" name.
Proof. destruct name as [|c name]; reflexivity. Qed.

(** The path of a colormap, for a directory that is not empty and does not
    end with a separator and a name that does not start with one. *)
Lemma path_join_plain (base_path name : string) :
  base_path <> "" -> Os.endswith_sep base_path = false ->
  Str.startswith "/" name = false ->
  Os.path_join base_path (name ++ ".rgb") = base_path ++ "/" ++ name ++ ".rgb".
Proof.
  intros Hb He Hn. unfold Os.path_join.
  change (String Os.sep "") with "/". rewrite startswith_sep_rgb, Hn, He.
  destruct base_path; [contradiction | reflexivity].
Qed.

Lemma load_unfold (fs : filesystem) (name base_path : string) :
  load_ncl_rgb_colors fs name base_path =
  match fs (Os.path_join base_path (name ++ ".rgb")) with
  | None =>
      Raise (FileNotFoundError
               ("Colormap file not found: "
                ++ Os.path_join base_path (name ++ ".rgb")))
  | Some Directory => Raise IsADirectoryError
  | Some (File text) => for_lines (Os.readlines text) []
  end.
Proof.
  unfold load_ncl_rgb_colors, Os.path_exists, Os.open_lines. cbv zeta.
  destruct (fs _) as [[text|]|]; reflexivity.
Qed.

(** * The claims on the colormap loader *)

(** C1. For a file whose lines are either passed over or hold three
    integers in [0, 255], the loader returns one color per triplet line, in
    file order; the color of [r g b] is [(r/255, g/255, b/255)], every
    component lies in [0.0, 1.0], the line [255 0 128] gives
    [(1.0, 0.0, 128/255)], and a file without triplet lines gives the
    empty list. *)
Theorem load_colors_well_formed
    (fs : filesystem) (name base_path text : string) (ts : list (Z * Z * Z)) :
  fs (Os.path_join base_path (name ++ ".rgb")) = Some (File text) ->
  colormap_lines (Os.readlines text) ts ->
  Forall channels_in_range ts ->
  exists cs,
    load_ncl_rgb_colors fs name base_path = Ok cs
    /\ List.length cs = List.length ts
    /\ Forall2 normalized ts cs
    /\ Forall color_in_unit_cube cs
    /\ (forall i, nth_error ts i = Some (255, 0, 128) ->
                  nth_error cs i = Some (Float.one, Float.zero, float_128_255))
    /\ (ts = [] -> cs = []).
Proof.
  intros Hfs Hl Hr.
  destruct (for_lines_colormap _ _ Hl Hr []) as [cs [Hcs [N U]]].
  exists cs. rewrite load_unfold, Hfs. simpl in Hcs.
  split; [assumption|]. split; [symmetry; eapply Forall2_length; eassumption|].
  split; [assumption|]. split; [assumption|]. split.
  - clear - N. induction N as [|t c ts cs Htc _ IH]; intros [|i]; simpl;
      try discriminate; [|apply IH].
    intros [= ->]. destruct c as [[x y] z]. destruct Htc as [Hx [Hy Hz]].
    vm_compute in Hx, Hy, Hz.
    injection Hx as <-. injection Hy as <-. injection Hz as <-. reflexivity.
  - intros ->. now inversion N.
Qed.

(** The loader on a file with a comment, the header, a blank line and two
    triplet lines. *)
Lemma load_colors_well_formed_witness :
  exists cs,
    load_ncl_rgb_colors demo_fs "demo" default_base_path = Ok cs
    /\ List.length cs = 2%nat
    /\ nth_error cs 0 = Some (Float.one, Float.zero, float_128_255).
Proof.
  assert (L : colormap_lines
                (Os.readlines
                   (unlines ["# demo"; "ncolors 2"; ""; "255 0 128"; "  0 255 7 "]))
                [(255, 0, 128); (0, 255, 7)]).
  { vm_compute Os.readlines.
    apply cl_skip; [left; apply skip_test_spec; reflexivity|].
    apply cl_skip; [left; apply skip_test_spec; reflexivity|].
    apply cl_skip; [left; apply skip_test_spec; reflexivity|].
    apply cl_triplet; [do 3 eexists; repeat split; reflexivity|].
    apply cl_triplet; [do 3 eexists; repeat split; reflexivity|].
    apply cl_nil. }
  assert (R : Forall channels_in_range [(255, 0, 128); (0, 255, 7)])
    by (repeat constructor; unfold is_channel; lia).
  destruct (load_colors_well_formed demo_fs "demo" default_base_path _ _
              eq_refl L R) as [cs [H [Hlen [_ [_ [H128 _]]]]]].
  exists cs. split; [exact H|]. split; [exact Hlen|].
  exact (H128 0%nat eq_refl).
Defined.

(** C4. The loader raises [FileNotFoundError] exactly when nothing exists
    at the path joined from [base_path] and [name.rgb], which is
    [base_path/name.rgb] for a plain directory and name; it then returns no
    colors at all, and whatever else it raises comes from [open], [int] or
    the division. *)
Theorem load_colors_not_found_iff
    (fs : filesystem) (name base_path : string) :
  let path := Os.path_join base_path (name ++ ".rgb") in
  ((exists msg, load_ncl_rgb_colors fs name base_path
                = Raise (FileNotFoundError msg))
   <-> fs path = None)
  /\ (fs path = None ->
      load_ncl_rgb_colors fs name base_path
      = Raise (FileNotFoundError ("Colormap file not found: " ++ path)))
  /\ (forall e, load_ncl_rgb_colors fs name base_path = Raise e ->
                (exists msg, e = FileNotFoundError msg)
                \/ e = IsADirectoryError \/ e = ValueError \/ e = OverflowError)
  /\ (base_path <> "" -> Os.endswith_sep base_path = false ->
      Str.startswith "/" name = false ->
      path = base_path ++ "/" ++ name ++ ".rgb").
Proof.
  cbv zeta. rewrite load_unfold.
  assert (P : base_path <> "" -> Os.endswith_sep base_path = false ->
              Str.startswith "/" name = false ->
              Os.path_join base_path (name ++ ".rgb")
              = base_path ++ "/" ++ name ++ ".rgb") by apply path_join_plain.
  destruct (fs _) as [[text|]|] eqn:F.
  - split; [split; [|discriminate]|split; [discriminate|split; [|exact P]]].
    + intros [msg H]. apply for_lines_raises in H. destruct H; discriminate.
    + intros e H. apply for_lines_raises in H. tauto.
  - split; [split; [intros [msg H]|]; discriminate|].
    split; [discriminate|]. split; [|exact P]. intros e [= <-]. tauto.
  - split; [split; [reflexivity | eauto]|].
    split; [reflexivity|]. split; [|exact P]. intros e [= <-]. eauto.
Qed.

(** On a file system without the colormap, the loader raises
    [FileNotFoundError]. *)
Lemma load_colors_not_found_iff_witness :
  load_ncl_rgb_colors demo_fs "missing" default_base_path
  = Raise (FileNotFoundError
             "Colormap file not found: plot_utils/colormaps/missing.rgb").
Proof.
  exact (proj1 (proj2 (load_colors_not_found_iff demo_fs "missing"
                         default_base_path)) eq_refl).
Defined.


(** C9. The channel range is not checked: the lines [300 0 0] and
    [-1 0 0] are accepted and give a component above 1.0 and below 0.0;
    the components are within [0.0, 1.0] when the integers are within
    [0, 255]. *)
Theorem channel_range_not_validated :
  (exists x y z,
      load_ncl_rgb_colors over_fs "over" default_base_path = Ok [(x, y, z)]
      /\ Float.ltb Float.one x = true)
  /\ (exists x y z,
         load_ncl_rgb_colors under_fs "under" default_base_path = Ok [(x, y, z)]
         /\ Float.ltb x Float.zero = true)
  /\ (forall n, is_channel n ->
                exists x, Float.int_truediv n 255 = Ok x /\ in_unit_interval x).
Proof.
  split; [|split].
  - do 3 eexists. split; vm_compute; reflexivity.
  - do 3 eexists. split; vm_compute; reflexivity.
  - exact channel_in_unit.
Qed.

(** The bound at the channel 128. *)
Lemma channel_range_not_validated_witness :
  exists x, Float.int_truediv 128 255 = Ok x /\ in_unit_interval x.
Proof.
  apply (proj2 (proj2 channel_range_not_validated) 128).
  unfold is_channel. lia.
Defined.

(** * Properties of the valid data frame *)

(** ** The heap is only extended *)

Lemma extends_refl (h : Heap.heap) : extends h h.
Proof. split; exists []; now rewrite app_nil_r. Qed.

Lemma extends_trans (h1 h2 h3 : Heap.heap) :
  extends h1 h2 -> extends h2 h3 -> extends h1 h3.
Proof.
  intros [[f1 F1] [b1 B1]] [[f2 F2] [b2 B2]]. split.
  - exists (f1 ++ f2)%list. now rewrite F2, F1, app_assoc.
  - exists (b1 ++ b2)%list. now rewrite B2, B1, app_assoc.
Qed.

Lemma ret_allocates_only {A : Type} (a : A) : allocates_only (Heap.ret a).
Proof. intros h. apply extends_refl. Qed.

Lemma raise_allocates_only {A : Type} (e : exn) :
  allocates_only (@Heap.raise A e).
Proof. intros h. apply extends_refl. Qed.

Lemma lift_allocates_only {A : Type} (r : result A) :
  allocates_only (Heap.lift r).
Proof. intros h. apply extends_refl. Qed.

Lemma load_floats_allocates_only (base off n : nat) :
  allocates_only (Heap.load_floats base off n).
Proof. intros h. apply extends_refl. Qed.

Lemma load_bools_allocates_only (base off n : nat) :
  allocates_only (Heap.load_bools base off n).
Proof. intros h. apply extends_refl. Qed.

Lemma alloc_floats_allocates_only (l : list float) :
  allocates_only (Heap.alloc_floats l).
Proof. intros h. split; simpl; [now exists [l] | exists []; now rewrite app_nil_r]. Qed.

Lemma alloc_bools_allocates_only (l : list bool) :
  allocates_only (Heap.alloc_bools l).
Proof. intros h. split; simpl; [exists []; now rewrite app_nil_r | now exists [l]]. Qed.

Lemma bind_allocates_only {A B : Type} (m : Heap.M A) (k : A -> Heap.M B) :
  allocates_only m -> (forall a, allocates_only (k a)) ->
  allocates_only (Heap.bindM m k).
Proof.
  intros Hm Hk h. unfold Heap.bindM. specialize (Hm h).
  destruct (m h) as [[a|e] h']; simpl in *; [|assumption].
  eapply extends_trans; [eassumption | apply Hk].
Qed.

Create HintDb heap discriminated.

#[local] Hint Resolve ret_allocates_only raise_allocates_only
  lift_allocates_only load_floats_allocates_only load_bools_allocates_only
  alloc_floats_allocates_only alloc_bools_allocates_only : heap.

Ltac allocates_only :=
  repeat first
    [ apply bind_allocates_only; [|intros ?]
    | match goal with
      | |- allocates_only (if ?c then _ else _) => destruct c
      end
    | solve [auto with heap] ].

Lemma getitem_allocates_only (a : Np.array4) (i j : Z) :
  allocates_only (Np.getitem a i j).
Proof. unfold Np.getitem. allocates_only. Qed.

Lemma isnan_allocates_only (a : Np.array2) : allocates_only (Np.isnan a).
Proof. unfold Np.isnan. allocates_only. Qed.

Lemma invert_allocates_only (a : Np.array2) : allocates_only (Np.invert a).
Proof. unfold Np.invert. allocates_only. Qed.

Lemma getitem_mask_allocates_only (a mask : Np.array2) :
  allocates_only (Np.getitem_mask a mask).
Proof. unfold Np.getitem_mask. allocates_only. Qed.

Lemma tolist_allocates_only (a : Np.array1) : allocates_only (Np.tolist a).
Proof. unfold Np.tolist. allocates_only. Qed.

#[local] Hint Resolve getitem_allocates_only isnan_allocates_only
  invert_allocates_only getitem_mask_allocates_only tolist_allocates_only : heap.

Lemma get_valid_data_frame_allocates_only
    (convex_hull : list point -> result geometry)
    (data_array : DataArray) (level_idx : Z * Z) :
  allocates_only (get_valid_data_frame convex_hull data_array level_idx).
Proof. unfold get_valid_data_frame. allocates_only. Qed.

Lemma extends_floats (h h' : Heap.heap) (a : Heap.addr) (l : list float) :
  extends h h' ->
  nth_error (Heap.floats h) a = Some l -> nth_error (Heap.floats h') a = Some l.
Proof.
  intros [[fs ->] _] H. rewrite nth_error_app1; [assumption|].
  apply nth_error_Some. congruence.
Qed.

Lemma extends_bools (h h' : Heap.heap) (a : Heap.addr) (l : list bool) :
  extends h h' ->
  nth_error (Heap.bools h) a = Some l -> nth_error (Heap.bools h') a = Some l.
Proof.
  intros [_ [bs ->]] H. rewrite nth_error_app1; [assumption|].
  apply nth_error_Some. congruence.
Qed.

(** ** The value computed

    The value of the call is a function of the three buffers of the data
    array. *)

Lemma slice_all {A : Type} (l : list A) (n : nat) :
  (List.length l <= n)%nat -> Heap.slice 0 n l = l.
Proof. intros H. unfold Heap.slice. simpl. now apply firstn_all2. Qed.

Lemma slice_length_le {A : Type} (off n : nat) (l : list A) :
  (List.length (Heap.slice off n l) <= n)%nat.
Proof. unfold Heap.slice. rewrite length_firstn. lia. Qed.

Lemma nth_new {A : Type} (l r : list A) (x d : A) :
  nth (List.length l) (l ++ x :: r) d = x.
Proof. now rewrite nth_middle. Qed.

Lemma nth_old {A : Type} (l r : list A) (a : nat) (d : A) :
  (a < List.length l)%nat -> nth a (l ++ r) d = nth a l d.
Proof. intros H. now apply app_nth1. Qed.

Lemma get_valid_data_frame_value
    (convex_hull : list point -> result geometry)
    (h : Heap.heap) (da : DataArray) (level_idx : Z * Z) :
  allocated h da ->
  fst (get_valid_data_frame convex_hull da level_idx h)
  = frame_value convex_hull
      (buffer h (Np.base4 (values da)))
      (buffer h (Np.base2 (lat da)))
      (buffer h (Np.base2 (lon da))) da level_idx.
Proof.
  intros [Av [Alat Alon]].
  unfold get_valid_data_frame, frame_value, Np.getitem, Heap.bindM, Heap.lift,
    bind, buffer.
  destruct (Np.normalize_index _ (fst level_idx)) as [i|e]; [|reflexivity].
  destruct (Np.normalize_index _ (snd level_idx)) as [j|e]; [|reflexivity].
  cbv zeta.
  unfold Np.isnan, Np.invert, Heap.bindM, Heap.load_floats, Heap.load_bools,
    Heap.alloc_bools, Heap.ret. cbn [Np.base2 Np.offset2 Np.rows Np.cols
    Heap.floats Heap.bools fst snd].
  rewrite nth_new.
  set (n := (Np.dim2 (values da) * Np.dim3 (values da))%nat).
  set (data := Heap.slice _ n (nth (Np.base4 (values da)) (Heap.floats h) [])).
  rewrite (slice_all (map Float.isnan data)) by
    (rewrite length_map; apply slice_length_le).
  unfold Np.getitem_mask, same_shape.
  cbn [Np.base2 Np.offset2 Np.rows Np.cols].
  destruct ((Np.rows (lat da) =? _)%nat && _) eqn:Slat; [|reflexivity].
  unfold Heap.bindM, Heap.load_floats, Heap.load_bools, Heap.alloc_floats,
    Heap.ret. cbn [Heap.floats Heap.bools fst snd Np.base1 Np.len1].
  rewrite nth_new. fold n.
  rewrite (slice_all (map negb (map Float.isnan data))) by
    (rewrite !length_map; apply slice_length_le).
  destruct ((Np.rows (lon da) =? _)%nat && _) eqn:Slon; [|reflexivity].
  cbn [Heap.floats Heap.bools fst snd Np.base1 Np.len1].
  rewrite nth_new. fold n.
  rewrite (slice_all (map negb (map Float.isnan data))) by
    (rewrite !length_map; apply slice_length_le).
  rewrite (nth_old _ _ (Np.base2 (lon da))) by assumption.
  set (ys := Np.select _ _). set (xs := Np.select _ _).
  destruct (List.length ys <? 3)%nat; [reflexivity|].
  unfold Np.tolist, Heap.load_floats.
  cbn [Heap.floats Heap.bools fst snd Np.base1 Np.len1].
  rewrite nth_new, <- app_assoc. cbn [app].
  rewrite nth_new, !slice_all by lia.
  unfold Heap.lift, bind. now destruct (convex_hull (combine xs ys)).
Qed.

(** ** The valid points, position by position *)

Lemma normalize_index_spec (n : nat) (i : Z) (k : nat) :
  Np.normalize_index n i = Ok k <-> index_of n i k.
Proof.
  unfold Np.normalize_index, index_of.
  destruct ((0 <=? i) && (i <? Z.of_nat n)) eqn:E1.
  - apply andb_true_iff in E1. destruct E1 as [H1 H2].
    apply Z.leb_le in H1. apply Z.ltb_lt in H2. split.
    + intros [= <-]. left. now split.
    + intros [[_ ->] | [H _]]; [reflexivity | lia].
  - destruct ((- Z.of_nat n <=? i) && (i <? 0)) eqn:E2.
    + apply andb_true_iff in E2. destruct E2 as [H1 H2].
      apply Z.leb_le in H1. apply Z.ltb_lt in H2. split.
      * intros [= <-]. right. now split.
      * intros [[H _] | [_ ->]]; [lia | reflexivity].
    + split; [discriminate|].
      apply andb_false_iff in E1. apply andb_false_iff in E2.
      rewrite !Z.leb_gt, !Z.ltb_ge in *. lia.
Qed.

Lemma index_of_lt (n : nat) (i : Z) (k : nat) : index_of n i k -> (k < n)%nat.
Proof. unfold index_of. lia. Qed.

Lemma slice_nth {A : Type} (off n : nat) (l : list A) (d : A) :
  (off + n <= List.length l)%nat ->
  Heap.slice off n l = map (fun k => nth (off + k) l d) (seq 0 n).
Proof.
  intros H. unfold Heap.slice.
  apply (nth_ext _ _ d (nth (off + 0) l d)).
  - rewrite length_firstn, length_skipn, length_map, length_seq. lia.
  - intros k Hk. rewrite length_firstn, length_skipn in Hk.
    rewrite nth_firstn, nth_skipn.
    replace (k <? n)%nat with true by (symmetry; apply Nat.ltb_lt; lia).
    rewrite (map_nth (fun k => nth (off + k) l d)), seq_nth by lia.
    reflexivity.
Qed.

Lemma select_map {A B : Type} (f : B -> A) (g : B -> bool) (l : list B) :
  Np.select (map f l) (map g l) = map f (filter g l).
Proof.
  induction l as [|b l IH]; simpl; [reflexivity|].
  destruct (g b); simpl; now rewrite IH.
Qed.

Lemma combine_map {A B C : Type} (f : C -> A) (g : C -> B) (l : list C) :
  combine (map f l) (map g l) = map (fun c => (f c, g c)) l.
Proof. induction l as [|c l IH]; simpl; [reflexivity | now rewrite IH]. Qed.

Lemma flat_map_filter {A B : Type} (f : A -> B) (g : A -> bool) (l : list A) :
  map f (filter g l) = flat_map (fun a => if g a then [f a] else []) l.
Proof.
  induction l as [|a l IH]; simpl; [reflexivity|].
  destruct (g a); simpl; now rewrite IH.
Qed.

Lemma flat_map_map {A B C : Type} (f : B -> list C) (g : A -> B) (l : list A) :
  flat_map f (map g l) = flat_map (fun a => f (g a)) l.
Proof. induction l as [|a l IH]; simpl; [reflexivity | now rewrite IH]. Qed.

Lemma flat_map_flat_map {A B C : Type}
    (f : B -> list C) (g : A -> list B) (l : list A) :
  flat_map f (flat_map g l) = flat_map (fun a => flat_map f (g a)) l.
Proof.
  induction l as [|a l IH]; simpl; [reflexivity|].
  now rewrite flat_map_app, IH.
Qed.

Lemma seq_from (s n : nat) : seq s n = map (fun x => (s + x)%nat) (seq 0 n).
Proof.
  revert s. induction n as [|n IH]; intros s; simpl; [reflexivity|].
  rewrite Nat.add_0_r. f_equal.
  rewrite (IH (S s)), <- (seq_shift n 0), map_map.
  apply map_ext. intros x. lia.
Qed.

(** Row-major order: the positions of a [ny] by [nx] array are the flat
    indices [y * nx + x], in increasing order. *)
Lemma positions_row_major (ny nx : nat) :
  map (fun '(y, x) => (y * nx + x)%nat) (positions ny nx) = seq 0 (ny * nx).
Proof.
  unfold positions. induction ny as [|ny IH].
  - reflexivity.
  - rewrite seq_S, flat_map_app, map_app, IH. simpl.
    rewrite app_nil_r, map_map.
    replace (nx + ny * nx)%nat with (ny * nx + nx)%nat by lia.
    rewrite seq_app. f_equal. simpl. now rewrite (seq_from (ny * nx)).
Qed.

Lemma frame_value_valid_points
    (convex_hull : list point -> result geometry)
    (h : Heap.heap) (da : DataArray) (level_idx : Z * Z) (i j : nat) :
  well_formed h da ->
  index_of (Np.dim0 (values da)) (fst level_idx) i ->
  index_of (Np.dim1 (values da)) (snd level_idx) j ->
  frame_value convex_hull
    (buffer h (Np.base4 (values da)))
    (buffer h (Np.base2 (lat da)))
    (buffer h (Np.base2 (lon da))) da level_idx
  = hull_or_none convex_hull (valid_points h da i j).
Proof.
  intros [_ Hv Hlr Hlc Hlb Hor Hoc Hob] Hi Hj.
  pose proof (index_of_lt _ _ _ Hi) as Li.
  pose proof (index_of_lt _ _ _ Hj) as Lj.
  apply normalize_index_spec in Hi, Hj.
  unfold frame_value, same_shape. cbv zeta. rewrite Hi, Hj. cbn [bind].
  rewrite Hlr, Hlc, Hor, Hoc, !Nat.eqb_refl in *. cbn [andb].
  set (v := values da) in *.
  set (n := (Np.dim2 v * Np.dim3 v)%nat) in *.
  set (off := ((i * Np.dim1 v + j) * n)%nat).
  assert (Hb : (off + n <= List.length (buffer h (Np.base4 v)))%nat)
    by (rewrite Hv; subst off;
        assert ((i * Np.dim1 v + j) + 1 <= Np.dim0 v * Np.dim1 v)%nat by nia;
        nia).
  rewrite (@slice_nth float off n _ S754_nan Hb).
  rewrite (@slice_nth float _ n _ S754_nan Hlb).
  rewrite (@slice_nth float _ n _ S754_nan Hob).
  rewrite !map_map, !select_map, combine_map, length_map. cbv beta.
  unfold hull_or_none, valid_points. fold v.
  set (g := fun k : nat =>
              negb (Float.isnan (nth (off + k) (buffer h (Np.base4 v)) S754_nan))).
  set (P := fun k : nat =>
              (nth (Np.offset2 (lon da) + k) (buffer h (Np.base2 (lon da))) S754_nan,
               nth (Np.offset2 (lat da) + k) (buffer h (Np.base2 (lat da))) S754_nan)).
  assert (E : map P (filter g (seq 0 n))
              = flat_map
                  (fun '(y, x) =>
                     if Float.isnan (at4 h v i j y x) then []
                     else [(at2 h (lon da) y x, at2 h (lat da) y x)])
                  (positions (Np.dim2 v) (Np.dim3 v))).
  { rewrite flat_map_filter. subst n.
    rewrite <- positions_row_major, flat_map_map.
    apply flat_map_ext. intros [y x]. subst g P. cbv beta.
    unfold at4, at2. rewrite Hlc, Hoc.
    replace (((i * Np.dim1 v + j) * Np.dim2 v + y) * Np.dim3 v + x)%nat
      with (off + (y * Np.dim3 v + x))%nat by (subst off; lia).
    now destruct (Float.isnan _). }
  rewrite <- E, length_map. reflexivity.
Qed.

(** The value of a call on a well-formed data array. *)
Lemma get_valid_data_frame_valid_points
    (convex_hull : list point -> result geometry)
    (h : Heap.heap) (da : DataArray) (level_idx : Z * Z) (i j : nat) :
  well_formed h da ->
  index_of (Np.dim0 (values da)) (fst level_idx) i ->
  index_of (Np.dim1 (values da)) (snd level_idx) j ->
  fst (get_valid_data_frame convex_hull da level_idx h)
  = hull_or_none convex_hull (valid_points h da i j).
Proof.
  intros W Hi Hj.
  rewrite get_valid_data_frame_value by apply W.
  now apply frame_value_valid_points.
Qed.

(** A point is valid exactly when it sits at a position of the slice whose
    value is not NaN. *)
Lemma in_valid_points (h : Heap.heap) (da : DataArray) (i j : nat) (p : point) :
  In p (valid_points h da i j) <->
  exists y x,
    (y < Np.dim2 (values da))%nat /\ (x < Np.dim3 (values da))%nat
    /\ Float.isnan (at4 h (values da) i j y x) = false
    /\ p = (at2 h (lon da) y x, at2 h (lat da) y x).
Proof.
  unfold valid_points, positions. rewrite in_flat_map. split.
  - intros [[y x] [Hpos Hp]]. apply in_flat_map in Hpos.
    destruct Hpos as [y' [Hy Hx]]. apply in_map_iff in Hx.
    destruct Hx as [x' [[= <- <-] Hx]]. apply in_seq in Hy, Hx.
    exists y', x'. destruct (Float.isnan _); [destruct Hp|].
    destruct Hp as [<- | []]. repeat split; lia.
  - intros [y [x [Hy [Hx [Hn ->]]]]]. exists (y, x). split.
    + apply in_flat_map. exists y. split; [apply in_seq; lia|].
      apply in_map. apply in_seq. lia.
    + rewrite Hn. now left.
Qed.

(** ** Plane geometry *)

Section GeoFacts.

Import Geo.
#[local] Open Scope Q_scope.

Lemma Qltb_lt (x y : Q) : Qltb x y = true <-> x < y.
Proof.
  unfold Qltb. rewrite negb_true_iff. split.
  - intros H. apply Qnot_le_lt. intros L. apply Qle_bool_iff in L. congruence.
  - intros H. destruct (Qle_bool y x) eqn:E; [|reflexivity].
    apply Qle_bool_iff in E. now apply Qlt_not_le in H.
Qed.

Lemma strictly_betweenb_complete (a b v : point) :
  strictly_between a b v -> strictly_betweenb a b v = true.
Proof.
  intros [C D]. unfold strictly_betweenb.
  apply andb_true_iff. split; [now apply Qeq_bool_iff | now apply Qltb_lt].
Qed.

Lemma distinct_incl (seen pts : list point) (p : point) :
  In p (distinct seen pts) -> In p pts.
Proof.
  revert seen. induction pts as [|q pts IH]; intros seen; simpl; [tauto|].
  destruct (existsb (same_place q) seen).
  - intros H. right. now apply (IH seen).
  - intros [<- | H]; [now left | right; now apply (IH (q :: seen))].
Qed.

Lemma some_triangle_complete (pts : list point) (a b c : point) :
  In a pts -> In b pts -> In c pts -> ~ cross a b c == 0 ->
  some_triangle pts = true.
Proof.
  intros Ha Hb Hc N. unfold some_triangle.
  apply existsb_exists. exists a. split; [assumption|].
  apply existsb_exists. exists b. split; [assumption|].
  apply existsb_exists. exists c. split; [assumption|].
  apply negb_true_iff. destruct (Qeq_bool (cross a b c) 0) eqn:E; [|reflexivity].
  apply Qeq_bool_iff in E. contradiction.
Qed.

Lemma extreme_not_between (pts : list point) (v a b : point) :
  extreme pts v = true -> In a pts -> In b pts -> ~ strictly_between a b v.
Proof.
  unfold extreme. intros E Ha Hb SB.
  apply andb_true_iff in E. destruct E as [E _].
  apply negb_true_iff in E.
  assert (T : existsb (fun a => existsb (fun b => strictly_betweenb a b v) pts) pts
              = true); [|congruence].
  apply existsb_exists. exists a. split; [assumption|].
  apply existsb_exists. exists b. split; [assumption|].
  now apply strictly_betweenb_complete.
Qed.

Lemma finite_points_checked (pts : list point) :
  Forall finite_point pts -> forallb finite_pointb pts = true.
Proof.
  intros F. apply forallb_forall. intros p Hp.
  destruct (proj1 (Forall_forall _ _) F p Hp) as [Hx Hy].
  unfold finite_pointb. now rewrite Hx, Hy.
Qed.

(** The exhaustive search meets the contract. *)
Lemma brute_hull_contract : hull_contract brute_hull.
Proof.
  intros pts F [a [b [c [Ha [Hb [Hc N]]]]]].
  unfold brute_hull, brute_hull_geometry. cbv zeta.
  rewrite (finite_points_checked pts F).
  rewrite (some_triangle_complete pts a b c Ha Hb Hc N).
  eexists. split; [reflexivity|].
  intros v Hv. apply filter_In in Hv. destruct Hv as [Hin Hext]. split.
  - now apply distinct_incl in Hin.
  - intros a' b' Ha' Hb'. now apply (extreme_not_between pts).
Qed.

(** The exhaustive search returns a geometry on finite points. *)
Lemma brute_hull_defined_on_finite : hull_defined_on_finite brute_hull.
Proof.
  intros pts F. unfold brute_hull. rewrite (finite_points_checked pts F). eauto.
Qed.

(** Three points that make a triangle are three different points. *)
Lemma triangle_three_points (pts : list point) (a b c : point) :
  In a pts -> In b pts -> In c pts -> ~ cross a b c == 0 ->
  (3 <= List.length pts)%nat.
Proof.
  intros Ha Hb Hc N.
  assert (D : NoDup [a; b; c]).
  { repeat constructor; simpl; intros H.
    - destruct H as [<- | [<- | []]]; apply N; unfold cross; ring.
    - destruct H as [<- | []]. apply N. unfold cross. ring.
    - destruct H. }
  apply (NoDup_incl_length D). intros p [<- | [<- | [<- | []]]]; assumption.
Qed.

Lemma Qmin_list_spec (l : list Q) (d : Q) :
  (Qmin_list d l = d \/ In (Qmin_list d l) l)
  /\ Qmin_list d l <= d
  /\ forall x, In x l -> Qmin_list d l <= x.
Proof.
  revert d. induction l as [|x l IH]; intros d; simpl.
  - split; [now left|]. split; [apply Qle_refl | tauto].
  - destruct (IH (if Qle_bool x d then x else d)) as [A [B C]].
    destruct (Qle_bool x d) eqn:E.
    + apply Qle_bool_iff in E. split; [|split].
      * destruct A as [-> | A]; [right; now left | right; now right].
      * now apply Qle_trans with x.
      * intros y [<- | Hy]; [assumption | now apply C].
    + assert (L : d <= x).
      { apply Qlt_le_weak, Qnot_le_lt. intros L.
        apply Qle_bool_iff in L. congruence. }
      split; [|split].
      * destruct A as [-> | A]; [now left | right; now right].
      * assumption.
      * intros y [<- | Hy]; [now apply Qle_trans with d | now apply C].
Qed.

Lemma Qmax_list_spec (l : list Q) (d : Q) :
  (Qmax_list d l = d \/ In (Qmax_list d l) l)
  /\ d <= Qmax_list d l
  /\ forall x, In x l -> x <= Qmax_list d l.
Proof.
  revert d. induction l as [|x l IH]; intros d; simpl.
  - split; [now left|]. split; [apply Qle_refl | tauto].
  - destruct (IH (if Qle_bool d x then x else d)) as [A [B C]].
    destruct (Qle_bool d x) eqn:E.
    + apply Qle_bool_iff in E. split; [|split].
      * destruct A as [-> | A]; [right; now left | right; now right].
      * now apply Qle_trans with x.
      * intros y [<- | Hy]; [assumption | now apply C].
    + assert (L : x <= d).
      { apply Qlt_le_weak, Qnot_le_lt. intros L.
        apply Qle_bool_iff in L. congruence. }
      split; [|split].
      * destruct A as [-> | A]; [now left | right; now right].
      * assumption.
      * intros y [<- | Hy]; [now apply Qle_trans with d | now apply C].
Qed.

(** The least number of a list is the number of one of its floats and is
    below all of them. *)
Lemma least_spec (l : list float) (x : float) :
  In x l ->
  (exists a, In a l /\ to_Q a = least l) /\ least l <= to_Q x.
Proof.
  unfold least. destruct l as [|d l]; [intros []|]. cbn [map].
  destruct (Qmin_list_spec (map to_Q l) (to_Q d)) as [A [B C]]. intros Hx. split.
  - destruct A as [A | A].
    + exists d. split; [now left | now rewrite A].
    + apply in_map_iff in A. destruct A as [a [Ea Ha]].
      exists a. split; [now right | assumption].
  - destruct Hx as [<- | Hx]; [assumption|]. apply C. now apply in_map.
Qed.

Lemma greatest_spec (l : list float) (x : float) :
  In x l ->
  (exists a, In a l /\ to_Q a = greatest l) /\ to_Q x <= greatest l.
Proof.
  unfold greatest. destruct l as [|d l]; [intros []|]. cbn [map].
  destruct (Qmax_list_spec (map to_Q l) (to_Q d)) as [A [B C]]. intros Hx. split.
  - destruct A as [A | A].
    + exists d. split; [now left | now rewrite A].
    + apply in_map_iff in A. destruct A as [a [Ea Ha]].
      exists a. split; [now right | assumption].
  - destruct Hx as [<- | Hx]; [assumption|]. apply C. now apply in_map.
Qed.

(** On one line of latitude, a longitude strictly inside the range lies
    between the two ends. *)
Lemma between_on_parallel (a1 a2 a b : float) :
  to_Q a1 < to_Q a -> to_Q a < to_Q a2 ->
  strictly_between (a1, b) (a2, b) (a, b).
Proof.
  intros H1 H2. unfold strictly_between, cross, dot, px, py. cbn [fst snd].
  split; [ring|].
  setoid_replace ((to_Q a - to_Q a1) * (to_Q a2 - to_Q a)
                  + (to_Q b - to_Q b) * (to_Q b - to_Q b))
    with ((to_Q a - to_Q a1) * (to_Q a2 - to_Q a)) by ring.
  apply Qmult_lt_0_compat; lra.
Qed.

Lemma between_on_meridian (b1 b2 a b : float) :
  to_Q b1 < to_Q b -> to_Q b < to_Q b2 ->
  strictly_between (a, b1) (a, b2) (a, b).
Proof.
  intros H1 H2. unfold strictly_between, cross, dot, px, py. cbn [fst snd].
  split; [ring|].
  setoid_replace ((to_Q a - to_Q a) * (to_Q a - to_Q a)
                  + (to_Q b - to_Q b1) * (to_Q b2 - to_Q b))
    with ((to_Q b - to_Q b1) * (to_Q b2 - to_Q b)) by ring.
  apply Qmult_lt_0_compat; lra.
Qed.

(** A number of the list is the least, the greatest, or strictly between
    two numbers of the list. *)
Lemma end_or_inside (l : list float) (x : float) :
  In x l ->
  to_Q x == least l \/ to_Q x == greatest l
  \/ exists a1 a2, In a1 l /\ In a2 l /\ to_Q a1 < to_Q x /\ to_Q x < to_Q a2.
Proof.
  intros Hx.
  destruct (least_spec l x Hx) as [[a1 [H1 E1]] L1].
  destruct (greatest_spec l x Hx) as [[a2 [H2 E2]] L2].
  destruct (Qeq_dec (to_Q x) (least l)) as [E | N1]; [now left|].
  destruct (Qeq_dec (to_Q x) (greatest l)) as [E | N2]; [right; now left|].
  right. right. exists a1, a2. rewrite E1, E2.
  repeat split; try assumption.
  - apply Qle_lteq in L1. destruct L1 as [L | L]; [assumption|].
    symmetry in L. contradiction.
  - apply Qle_lteq in L2. destruct L2 as [L | L]; [assumption | contradiction].
Qed.

End GeoFacts.

(** ** Grids *)

Lemma full_grid_points (h : Heap.heap) (da : DataArray) (i j : nat)
    (xs ys : list float) (p : point) :
  entirely_valid h da i j -> rectangular_grid h da xs ys ->
  In p (valid_points h da i j) <-> In (fst p) xs /\ In (snd p) ys.
Proof.
  intros V [Lx [Ly [_ [_ G]]]]. rewrite in_valid_points. split.
  - intros [y [x [Hy [Hx [_ ->]]]]]. destruct (G y x Hy Hx) as [-> ->].
    cbn [fst snd]. split; apply nth_In; congruence.
  - destruct p as [a b]. cbn [fst snd]. intros [Ha Hb].
    destruct (In_nth xs a S754_nan Ha) as [x [Hx Ex]].
    destruct (In_nth ys b S754_nan Hb) as [y [Hy Ey]].
    rewrite Lx in Hx. rewrite Ly in Hy.
    exists y, x. destruct (G y x Hy Hx) as [-> ->].
    repeat split; try assumption; [now apply V | congruence].
Qed.

(** * The claims on the valid data frame *)

(** The sample grids are well formed. *)
Lemma mk_grid_well_formed (vals lats lons : list float) (ny nx : nat) :
  List.length vals = (ny * nx)%nat ->
  List.length lats = (ny * nx)%nat ->
  List.length lons = (ny * nx)%nat ->
  well_formed (fst (mk_grid vals lats lons ny nx))
              (snd (mk_grid vals lats lons ny nx)).
Proof.
  intros Hv Hla Hlo. constructor; unfold allocated, buffer; simpl; lia.
Qed.

Lemma extends_buffer (h h' : Heap.heap) (a : Heap.addr) :
  extends h h' -> (a < List.length (Heap.floats h))%nat ->
  buffer h' a = buffer h a.
Proof. intros [[fs E] _] H. unfold buffer. rewrite E. now apply nth_old. Qed.

Lemma extends_allocated (h h' : Heap.heap) (da : DataArray) :
  extends h h' -> allocated h da -> allocated h' da.
Proof.
  intros [[fs E] _]. unfold allocated. rewrite E, length_app. lia.
Qed.




(** C3. On a well-formed data array whose selected slice has fewer than
    three values that are not NaN, the call returns [None] and raises
    nothing. *)
Theorem fewer_than_three_valid_points_none
    (convex_hull : list point -> result geometry)
    (h : Heap.heap) (da : DataArray) (level_idx : Z * Z) (i j : nat) :
  well_formed h da ->
  index_of (Np.dim0 (values da)) (fst level_idx) i ->
  index_of (Np.dim1 (values da)) (snd level_idx) j ->
  (List.length (valid_points h da i j) < 3)%nat ->
  fst (get_valid_data_frame convex_hull da level_idx h) = Ok None.
Proof.
  intros W Hi Hj L.
  rewrite (get_valid_data_frame_valid_points _ _ _ _ i j W Hi Hj).
  unfold hull_or_none.
  replace (_ <? 3)%nat with true by (symmetry; apply Nat.ltb_lt; exact L).
  reflexivity.
Qed.

(** A slice with two valid points. *)
Lemma fewer_than_three_valid_points_none_witness :
  fst (get_valid_data_frame Geo.brute_hull (snd grid_2x2_sparse) (0, -1)
         (fst grid_2x2_sparse))
  = Ok None.
Proof.
  apply (fewer_than_three_valid_points_none Geo.brute_hull
           (fst grid_2x2_sparse) (snd grid_2x2_sparse) (0, -1) 0%nat 0%nat).
  - apply mk_grid_well_formed; reflexivity.
  - left. simpl. lia.
  - right. simpl. lia.
  - vm_compute. lia.
Defined.

(** C7. A second call on the same data array and the same [level_idx], in
    the heap that the first call leaves, returns what the first call
    returned. *)
Theorem second_call_same_result
    (convex_hull : list point -> result geometry)
    (h : Heap.heap) (da : DataArray) (level_idx : Z * Z) :
  allocated h da ->
  fst (get_valid_data_frame convex_hull da level_idx
         (snd (get_valid_data_frame convex_hull da level_idx h)))
  = fst (get_valid_data_frame convex_hull da level_idx h).
Proof.
  intros A.
  pose proof (get_valid_data_frame_allocates_only convex_hull da level_idx h) as E.
  set (h' := snd _) in *.
  rewrite !get_valid_data_frame_value
    by (assumption || now apply (extends_allocated h)).
  destruct A as [Av [Ala Alo]].
  now rewrite !(extends_buffer h h') by assumption.
Qed.

(** Two calls on the grid of two rows and three columns. *)
Lemma second_call_same_result_witness :
  fst (get_valid_data_frame Geo.brute_hull (snd grid_2x3) (0, 0)
         (snd (get_valid_data_frame Geo.brute_hull (snd grid_2x3) (0, 0)
                 (fst grid_2x3))))
  = fst (get_valid_data_frame Geo.brute_hull (snd grid_2x3) (0, 0) (fst grid_2x3)).
Proof.
  apply (second_call_same_result Geo.brute_hull (fst grid_2x3) (snd grid_2x3)).
  unfold allocated. simpl. lia.
Defined.

(** C8. The call writes into no buffer that exists before it: every
    buffer of the heap, those of [values], [lat] and [lon] among them,
    holds the same elements after the call, whatever the call returns or
    raises. *)
Theorem inputs_not_mutated
    (convex_hull : list point -> result geometry)
    (h : Heap.heap) (da : DataArray) (level_idx : Z * Z) :
  let h' := snd (get_valid_data_frame convex_hull da level_idx h) in
  (forall a l, nth_error (Heap.floats h) a = Some l ->
               nth_error (Heap.floats h') a = Some l)
  /\ (forall a l, nth_error (Heap.bools h) a = Some l ->
                  nth_error (Heap.bools h') a = Some l)
  /\ (allocated h da ->
      buffer h' (Np.base4 (values da)) = buffer h (Np.base4 (values da))
      /\ buffer h' (Np.base2 (lat da)) = buffer h (Np.base2 (lat da))
      /\ buffer h' (Np.base2 (lon da)) = buffer h (Np.base2 (lon da))).
Proof.
  cbv zeta.
  pose proof (get_valid_data_frame_allocates_only convex_hull da level_idx h) as E.
  split; [|split].
  - intros a l. now apply extends_floats.
  - intros a l. now apply extends_bools.
  - intros [Av [Ala Alo]]. repeat split; now apply extends_buffer.
Qed.

(** The buffer of [values] after a call on the grid of two rows and two
    columns. *)
Lemma inputs_not_mutated_witness :
  buffer (snd (get_valid_data_frame Geo.brute_hull (snd grid_2x2) (0, 0)
                 (fst grid_2x2))) 0%nat
  = [num 280; nan; num 281; num 282].
Proof.
  refine (proj1 (proj2 (proj2 (inputs_not_mutated Geo.brute_hull
                                 (fst grid_2x2) (snd grid_2x2) (0, 0))) _)).
  unfold allocated. simpl. lia.
Defined.

(** C10, as stated, fails on a grid of four valid points one of which has
    a NaN latitude: there are three valid points or more, and the call
    raises [GEOSException] instead of returning a geometry. *)
Lemma nan_coordinate_raises :
  well_formed (fst grid_2x2_nan_lat) (snd grid_2x2_nan_lat)
  /\ List.length (valid_points (fst grid_2x2_nan_lat) (snd grid_2x2_nan_lat) 0 0)
     = 4%nat
  /\ fst (get_valid_data_frame Geo.brute_hull (snd grid_2x2_nan_lat) (0, 0)
            (fst grid_2x2_nan_lat))
     = Raise GEOSException.
Proof.
  split; [apply mk_grid_well_formed; reflexivity|].
  split; reflexivity.
Qed.

(** C10, amended. On a well-formed data array the call returns [None]
    exactly when fewer than three values of the slice are not NaN; with
    three valid points or more, all finite, it returns a geometry, whatever
    the points are, on one line or repeated.  The hull is any function
    that returns a geometry on finite points. *)
Theorem none_iff_fewer_than_three
    (convex_hull : list point -> result geometry)
    (h : Heap.heap) (da : DataArray) (level_idx : Z * Z) (i j : nat) :
  well_formed h da ->
  index_of (Np.dim0 (values da)) (fst level_idx) i ->
  index_of (Np.dim1 (values da)) (snd level_idx) j ->
  (fst (get_valid_data_frame convex_hull da level_idx h) = Ok None
   <-> (List.length (valid_points h da i j) < 3)%nat)
  /\ ((3 <= List.length (valid_points h da i j))%nat ->
      Forall Geo.finite_point (valid_points h da i j) ->
      Geo.hull_defined_on_finite convex_hull ->
      exists g, fst (get_valid_data_frame convex_hull da level_idx h)
                = Ok (Some g)).
Proof.
  intros W Hi Hj.
  rewrite (get_valid_data_frame_valid_points _ _ _ _ i j W Hi Hj).
  unfold hull_or_none.
  destruct (_ <? 3)%nat eqn:E.
  - apply Nat.ltb_lt in E. split; [tauto | lia].
  - apply Nat.ltb_ge in E. split.
    + split; [|lia].
      destruct (convex_hull _); cbn [bind]; discriminate.
    + intros _ F D. destruct (D _ F) as [g ->]. cbn [bind]. eauto.
Qed.

(** Three valid points on one line of latitude: the call returns a
    geometry. *)
Lemma none_iff_fewer_than_three_witness :
  exists g,
    fst (get_valid_data_frame Geo.brute_hull (snd grid_1x3) (0, 0) (fst grid_1x3))
    = Ok (Some g).
Proof.
  refine (proj2 (none_iff_fewer_than_three Geo.brute_hull
                   (fst grid_1x3) (snd grid_1x3) (0, 0) 0%nat 0%nat _ _ _)
            _ _ brute_hull_defined_on_finite).
  - apply mk_grid_well_formed; reflexivity.
  - left. simpl. lia.
  - left. simpl. lia.
  - vm_compute. lia.
  - vm_compute valid_points. repeat constructor.
Defined.

(** C6, as stated, fails on a grid of one row and two columns: the slice
    is entirely valid, the grid is rectangular, and the call returns
    [None], not a polygon. *)
Lemma full_grid_of_two_points_is_none :
  Geo.hull_contract Geo.brute_hull
  /\ well_formed (fst grid_1x2) (snd grid_1x2)
  /\ entirely_valid (fst grid_1x2) (snd grid_1x2) 0 0
  /\ rectangular_grid (fst grid_1x2) (snd grid_1x2) [num 7; num 8] [num 46]
  /\ fst (get_valid_data_frame Geo.brute_hull (snd grid_1x2) (0, 0) (fst grid_1x2))
     = Ok None
  /\ (forall convex_hull,
        fst (get_valid_data_frame convex_hull (snd grid_1x2) (0, 0) (fst grid_1x2))
        = Ok None).
Proof.
  split; [exact brute_hull_contract|].
  split; [apply mk_grid_well_formed; reflexivity|].
  split; [|split; [|split; [reflexivity | intros convex_hull; reflexivity]]].
  - intros [|[|y]] [|[|[|x]]] Hy Hx; simpl in Hy, Hx; try lia; reflexivity.
  - repeat split; try reflexivity.
    + repeat constructor.
    + repeat constructor.
    + destruct y as [|[|y]], x as [|[|[|x]]]; simpl in *; try lia; reflexivity.
    + destruct y as [|[|y]], x as [|[|[|x]]]; simpl in *; try lia; reflexivity.
Qed.

(** C6, amended. On a well-formed data array whose selected slice is
    entirely valid, over a rectangular grid with two different longitudes
    and two different latitudes at least, the call returns a polygon, and
    every vertex of the polygon is a grid point at a corner of the
    bounding extent of the grid.  The hull is any function that meets
    [Geo.hull_contract]. *)
Theorem full_rectangular_grid_hull
    (convex_hull : list point -> result geometry)
    (h : Heap.heap) (da : DataArray) (level_idx : Z * Z) (i j : nat)
    (xs ys : list float) :
  Geo.hull_contract convex_hull ->
  well_formed h da ->
  index_of (Np.dim0 (values da)) (fst level_idx) i ->
  index_of (Np.dim1 (values da)) (snd level_idx) j ->
  entirely_valid h da i j ->
  rectangular_grid h da xs ys ->
  two_values xs -> two_values ys ->
  exists ring,
    fst (get_valid_data_frame convex_hull da level_idx h)
    = Ok (Some (Polygon ring))
    /\ forall v, In v ring ->
         In v (valid_points h da i j) /\ Geo.is_corner xs ys v.
Proof.
  intros C W Hi Hj V G [a1 [a2 [Ha1 [Ha2 Na]]]] [b1 [b2 [Hb1 [Hb2 Nb]]]].
  set (pts := valid_points h da i j).
  assert (P : forall p, In p pts <-> In (fst p) xs /\ In (snd p) ys)
    by (intros p; now apply full_grid_points).
  assert (F : Forall Geo.finite_point pts).
  { destruct G as [_ [_ [Fx [Fy _]]]]. apply Forall_forall. intros p Hp.
    apply P in Hp. destruct Hp as [Hx Hy]. split.
    - now apply (proj1 (Forall_forall _ _) Fx).
    - now apply (proj1 (Forall_forall _ _) Fy). }
  assert (T : exists a b c, In a pts /\ In b pts /\ In c pts
                            /\ ~ (Geo.cross a b c == 0)%Q).
  { exists (a1, b1), (a2, b1), (a1, b2).
    repeat split; try (apply P; now split).
    unfold Geo.cross, Geo.px, Geo.py. cbn [fst snd]. intros E.
    assert (E' : ((Geo.to_Q a2 - Geo.to_Q a1) * (Geo.to_Q b2 - Geo.to_Q b1) == 0)%Q)
      by (rewrite <- E; ring).
    apply Qmult_integral in E'. destruct E' as [E' | E'].
    - apply Na. lra.
    - apply Nb. lra. }
  destruct (C pts F T) as [ring [Hring Hv]].
  destruct T as [a [b [c [Ha [Hb [Hc N]]]]]].
  pose proof (triangle_three_points pts a b c Ha Hb Hc N) as L.
  exists ring. split.
  - rewrite (get_valid_data_frame_valid_points _ _ _ _ i j W Hi Hj).
    fold pts. unfold hull_or_none.
    replace (_ <? 3)%nat with false by (symmetry; apply Nat.ltb_ge; exact L).
    now rewrite Hring.
  - intros v Hin. destruct (Hv v Hin) as [Hp B]. split; [assumption|].
    destruct v as [x y]. apply P in Hp. cbn [fst snd] in Hp.
    destruct Hp as [Hx Hy]. unfold Geo.is_corner, Geo.px, Geo.py. cbn [fst snd].
    split.
    + destruct (end_or_inside xs x Hx) as [E | [E | [x1 [x2 [H1 [H2 [L1 L2]]]]]]];
        [now left | now right | exfalso].
      apply (B (x1, y) (x2, y)); try (apply P; now split).
      now apply between_on_parallel.
    + destruct (end_or_inside ys y Hy) as [E | [E | [y1 [y2 [H1 [H2 [L1 L2]]]]]]];
        [now left | now right | exfalso].
      apply (B (x, y1) (x, y2)); try (apply P; now split).
      now apply between_on_meridian.
Qed.

(** The hull of the grid of two rows and three columns is a polygon on
    corners of its extent. *)
Lemma full_rectangular_grid_hull_witness :
  exists ring,
    fst (get_valid_data_frame Geo.brute_hull (snd grid_2x3) (0, 0) (fst grid_2x3))
    = Ok (Some (Polygon ring))
    /\ forall v, In v ring ->
         In v (valid_points (fst grid_2x3) (snd grid_2x3) 0 0)
         /\ Geo.is_corner [num 7; num 8; num 9] [num 46; num 47] v.
Proof.
  apply (full_rectangular_grid_hull Geo.brute_hull (fst grid_2x3) (snd grid_2x3)
           (0, 0) 0%nat 0%nat).
  - exact brute_hull_contract.
  - apply mk_grid_well_formed; reflexivity.
  - left. simpl. lia.
  - left. simpl. lia.
  - intros [|[|[|y]]] [|[|[|[|x]]]] Hy Hx; simpl in Hy, Hx; try lia; reflexivity.
  - repeat split; try reflexivity; try (repeat constructor).
    + destruct y as [|[|[|y]]], x as [|[|[|[|x]]]]; simpl in *; try lia; reflexivity.
    + destruct y as [|[|[|y]]], x as [|[|[|[|x]]]]; simpl in *; try lia; reflexivity.
  - exists (num 7), (num 8). repeat split; [now left | right; now left|].
    vm_compute. discriminate.
  - exists (num 46), (num 47). repeat split; [now left | right; now left|].
    vm_compute. discriminate.
Defined.

(** * Further properties of the colormap loader *)

(** ** The tokens decide *)

Lemma split_from_nonempty (s tok : string) :
  Str.is_empty tok = false ->
  exists u rest, Str.split_from tok s = (tok ++ u) :: rest.
Proof.
  revert tok. induction s as [|c s IH]; intros tok H; simpl.
  - rewrite H. exists "", []. now rewrite app_empty_r.
  - destruct (Str.isspace c).
    + rewrite H. exists "", (Str.split_from "" s). now rewrite app_empty_r.
    + destruct (IH (tok ++ String c "")) as [u [rest E]].
      { now destruct tok. }
      exists (String c u), rest. now rewrite E, app_assoc_str.
Qed.

Lemma rstrip_head (c : ascii) (t : string) :
  Str.isspace c = false ->
  exists r, Str.rstrip_with Str.isspace (String c t) = String c r.
Proof.
  intros H. cbn [Str.rstrip_with].
  destruct (Str.rstrip_with Str.isspace t); [rewrite H|]; eauto.
Qed.

(** The stripped line is empty when the line has no token, and starts with
    the first character of the first token otherwise. *)
Lemma strip_tokens (line : string) :
  match Str.split line with
  | [] => Str.strip line = ""
  | t :: _ => exists c u r, t = String c u /\ Str.strip line = String c r
  end.
Proof.
  unfold Str.split. rewrite <- split_from_lstrip.
  unfold Str.strip, Str.strip_with.
  destruct (lstrip_with_spec Str.isspace line) as [_ [_ [_ H]]].
  destruct (Str.lstrip_with Str.isspace line) as [|c t]; [reflexivity|].
  destruct (rstrip_head c t H) as [r ->].
  simpl. rewrite H.
  destruct (split_from_nonempty t (String c "") eq_refl) as [u [rest ->]].
  exists c, u, r. now split.
Qed.

Lemma startswith_app_space (p t s : string) (c : ascii) :
  is_token p = true -> Str.isspace c = true ->
  Str.startswith p (t ++ String c s) = Str.startswith p t.
Proof.
  unfold is_token. intros Hp Hc. apply andb_true_iff in Hp.
  destruct Hp as [_ Hp]. revert t.
  induction p as [|x p IH]; intros t; [reflexivity|].
  unfold chars in Hp. simpl in Hp. apply andb_true_iff in Hp.
  destruct Hp as [Hx Hp]. apply negb_true_iff in Hx.
  destruct t as [|y t]; simpl.
  - destruct (Ascii.eqb x c) eqn:E; [|reflexivity].
    apply Ascii.eqb_eq in E. congruence.
  - now rewrite (IH Hp).
Qed.

Lemma contains_empty (p : string) :
  Str.is_empty p = false -> Str.contains p "" = false.
Proof. destruct p; [discriminate | reflexivity]. Qed.

Lemma contains_app_space (p t s : string) (c : ascii) :
  is_token p = true -> Str.isspace c = true ->
  Str.contains p (t ++ String c s) = Str.contains p t || Str.contains p s.
Proof.
  intros Hp Hc.
  assert (Ne : Str.is_empty p = false).
  { unfold is_token in Hp. apply andb_true_iff in Hp.
    now apply negb_true_iff. }
  induction t as [|y t IH].
  - cbn [append]. rewrite (contains_empty p Ne). cbn [orb].
    change (Str.contains p (String c s))
      with (Str.startswith p (String c s) || Str.contains p s).
    change (String c s) with ("" ++ String c s) at 1.
    rewrite (startswith_app_space p "" s c Hp Hc).
    now destruct p.
  - change (Str.contains p (String y t ++ String c s))
      with (Str.startswith p (String y t ++ String c s)
            || Str.contains p (t ++ String c s)).
    change (Str.contains p (String y t))
      with (Str.startswith p (String y t) || Str.contains p t).
    rewrite (startswith_app_space p (String y t) s c Hp Hc), IH.
    now rewrite orb_assoc.
Qed.

(** A word without whitespace is in a line exactly when it is in one of
    the tokens of the line. *)
Lemma contains_split_from (p s tok : string) :
  is_token p = true ->
  existsb (Str.contains p) (Str.split_from tok s) = Str.contains p (tok ++ s).
Proof.
  intros Hp.
  assert (Ne : Str.is_empty p = false).
  { unfold is_token in Hp. apply andb_true_iff in Hp.
    now apply negb_true_iff. }
  revert tok. induction s as [|c s IH]; intros tok.
  - rewrite app_empty_r. cbn [Str.split_from]. destruct tok as [|a tok].
    + cbn [Str.is_empty existsb]. now rewrite (contains_empty p Ne).
    + cbn [Str.is_empty existsb]. now rewrite orb_false_r.
  - cbn [Str.split_from]. destruct (Str.isspace c) eqn:Hc.
    + rewrite (contains_app_space p tok s c Hp Hc).
      destruct tok as [|a tok]; cbn [Str.is_empty existsb].
      * rewrite (IH ""). cbn [append]. now rewrite (contains_empty p Ne).
      * rewrite (IH ""). reflexivity.
    + rewrite (IH (tok ++ String c "")), app_assoc_str. reflexivity.
Qed.

Lemma ncolors_is_token : is_token "ncolors" = true.
Proof. reflexivity. Qed.

Lemma contains_strip (p line : string) :
  is_token p = true ->
  Str.contains p (Str.strip line) = existsb (Str.contains p) (Str.split line).
Proof.
  intros Hp. rewrite <- split_strip. unfold Str.split.
  now rewrite (contains_split_from p _ "" Hp).
Qed.

(** The loop body is a function of the tokens of the line. *)
Lemma loop_body_on_tokens (colors : list color) (line : string) :
  loop_body colors line = body_on_tokens colors (Str.split line).
Proof.
  rewrite loop_body_unfold. cbv zeta.
  rewrite (contains_strip "ncolors" line ncolors_is_token), split_strip.
  pose proof (strip_tokens line) as H. unfold body_on_tokens.
  destruct (Str.split line) as [|t rest].
  - now rewrite H.
  - destruct H as [c [u [r [-> ->]]]]. reflexivity.
Qed.

Lemma for_lines_same_tokens (ls1 ls2 : list string) (acc : list color) :
  Forall2 (fun a b => Str.split a = Str.split b) ls1 ls2 ->
  for_lines ls1 acc = for_lines ls2 acc.
Proof.
  intros H. revert acc. induction H as [|a b ls1 ls2 E _ IH]; intros acc.
  - reflexivity.
  - simpl. rewrite !loop_body_on_tokens, E.
    destruct (body_on_tokens acc (Str.split b)); cbn [bind]; [apply IH | reflexivity].
Qed.

(** X1. Only the tokens of the lines count: two files whose lines, taken in
    order, split on whitespace into the same tokens load to the same
    result, the same colors or the same exception.  Indentation, trailing
    blanks and the kind and number of blanks between the tokens do not
    matter. *)
Theorem load_colors_same_tokens
    (fs1 fs2 : filesystem) (name base_path text1 text2 : string) :
  fs1 (Os.path_join base_path (name ++ ".rgb")) = Some (File text1) ->
  fs2 (Os.path_join base_path (name ++ ".rgb")) = Some (File text2) ->
  Forall2 (fun a b => Str.split a = Str.split b)
          (Os.readlines text1) (Os.readlines text2) ->
  load_ncl_rgb_colors fs1 name base_path = load_ncl_rgb_colors fs2 name base_path.
Proof.
  intros H1 H2 T. rewrite !load_unfold, H1, H2.
  now apply for_lines_same_tokens.
Qed.

(** A file with one space between the values and a file with tabs, runs of
    blanks and an indented comment. *)
Lemma load_colors_same_tokens_witness :
  load_ncl_rgb_colors
    (single_file "plot_utils/colormaps/demo.rgb"
       (unlines ["# demo"; "255 0 128"; "0 255 7"]))
    "demo" default_base_path
  = load_ncl_rgb_colors
      (single_file "plot_utils/colormaps/demo.rgb"
         (unlines ["   # demo  "; String "009" "255   0" ++ String "009" "128  ";
                   "0 255  7"]))
      "demo" default_base_path.
Proof.
  apply (load_colors_same_tokens _ _ "demo" default_base_path _ _ eq_refl eq_refl).
  vm_compute Os.readlines.
  repeat (constructor; [reflexivity|]). constructor.
Defined.

(** ** Line endings *)

Lemma universal_newlines_line (l x : string) (b : bool) :
  newline_free l = true ->
  Os.universal_newlines b (l ++ x)
  = l ++ Os.universal_newlines (b && Str.is_empty l) x.
Proof.
  revert b. induction l as [|c l IH]; intros b H.
  - simpl. now rewrite andb_true_r.
  - unfold newline_free, chars in H. simpl in H.
    apply andb_true_iff in H. destruct H as [Hc Hl].
    apply negb_true_iff, orb_false_iff in Hc. destruct Hc as [Hlf Hcr].
    simpl. rewrite Hcr, Hlf, (IH false Hl). simpl.
    now rewrite andb_false_r.
Qed.

Lemma universal_newlines_join_lf (ls : list string) :
  Forall (fun l => newline_free l = true) ls ->
  Os.universal_newlines false (join_lines (String Os.LF "") ls)
  = join_lines (String Os.LF "") ls.
Proof.
  induction 1 as [|l ls Hl _ IH]; [reflexivity|].
  cbn [join_lines]. rewrite (universal_newlines_line l _ false Hl).
  cbn [andb append Os.universal_newlines]. simpl (Ascii.eqb _ _).
  now rewrite IH.
Qed.

Lemma universal_newlines_join_crlf (ls : list string) :
  Forall (fun l => newline_free l = true) ls ->
  Os.universal_newlines false (join_lines (String Os.CR (String Os.LF "")) ls)
  = join_lines (String Os.LF "") ls.
Proof.
  induction 1 as [|l ls Hl _ IH]; [reflexivity|].
  cbn [join_lines]. rewrite (universal_newlines_line l _ false Hl).
  cbn [andb append Os.universal_newlines]. simpl (Ascii.eqb _ _).
  cbn iota. now rewrite IH.
Qed.

Lemma universal_newlines_join_cr (ls : list string) (b : bool) :
  Forall (fun l => newline_free l = true) ls ->
  Os.universal_newlines b (join_lines (String Os.CR "") ls)
  = join_lines (String Os.LF "") ls.
Proof.
  intros H. revert b. induction H as [|l ls Hl _ IH]; intros b; [reflexivity|].
  cbn [join_lines]. rewrite (universal_newlines_line l _ b Hl).
  cbn [append Os.universal_newlines]. simpl (Ascii.eqb _ _).
  cbn iota. now rewrite IH.
Qed.

Lemma lines_from_line (l cur rest : string) :
  newline_free l = true ->
  Os.lines_from cur (l ++ String Os.LF rest)
  = (cur ++ l ++ String Os.LF "") :: Os.lines_from "" rest.
Proof.
  revert cur. induction l as [|c l IH]; intros cur H.
  - reflexivity.
  - unfold newline_free, chars in H. simpl in H.
    apply andb_true_iff in H. destruct H as [Hc Hl].
    apply negb_true_iff, orb_false_iff in Hc. destruct Hc as [Hlf _].
    simpl. rewrite Hlf, (IH _ Hl), app_assoc_str. reflexivity.
Qed.

Lemma lines_from_join (ls : list string) :
  Forall (fun l => newline_free l = true) ls ->
  Os.lines_from "" (join_lines (String Os.LF "") ls)
  = map (fun l => l ++ String Os.LF "") ls.
Proof.
  induction 1 as [|l ls Hl _ IH]; [reflexivity|].
  cbn [join_lines append map]. now rewrite (lines_from_line l "" _ Hl), IH.
Qed.

(** The lines read from a text with any of the three line endings. *)
Lemma readlines_join (eol : string) (ls : list string) :
  is_eol eol -> Forall (fun l => newline_free l = true) ls ->
  Os.readlines (join_lines eol ls) = map (fun l => l ++ String Os.LF "") ls.
Proof.
  intros [-> | [-> | ->]] H; unfold Os.readlines.
  - now rewrite universal_newlines_join_lf, lines_from_join.
  - now rewrite universal_newlines_join_crlf, lines_from_join.
  - now rewrite universal_newlines_join_cr, lines_from_join.
Qed.

Lemma unlines_join (ls : list string) : unlines ls = join_lines (String Os.LF "") ls.
Proof. induction ls as [|l ls IH]; simpl; [reflexivity | now rewrite IH]. Qed.

(** X2. The line ending does not matter: the same lines written with line
    feeds, with carriage returns and line feeds, or with carriage returns
    load to the same result. *)
Theorem load_colors_any_line_ending
    (fs1 fs2 : filesystem) (name base_path eol1 eol2 : string)
    (ls : list string) :
  is_eol eol1 -> is_eol eol2 ->
  Forall (fun l => newline_free l = true) ls ->
  fs1 (Os.path_join base_path (name ++ ".rgb")) = Some (File (join_lines eol1 ls)) ->
  fs2 (Os.path_join base_path (name ++ ".rgb")) = Some (File (join_lines eol2 ls)) ->
  load_ncl_rgb_colors fs1 name base_path = load_ncl_rgb_colors fs2 name base_path.
Proof.
  intros E1 E2 H F1 F2. rewrite !load_unfold, F1, F2.
  now rewrite !readlines_join.
Qed.

(** A file with line feeds and the same file with carriage returns and
    line feeds. *)
Lemma load_colors_any_line_ending_witness :
  load_ncl_rgb_colors
    (single_file "plot_utils/colormaps/demo.rgb"
       (join_lines (String Os.LF "") ["ncolors 2"; "255 0 128"; ""; "0 255 7"]))
    "demo" default_base_path
  = load_ncl_rgb_colors
      (single_file "plot_utils/colormaps/demo.rgb"
         (join_lines (String Os.CR (String Os.LF ""))
            ["ncolors 2"; "255 0 128"; ""; "0 255 7"]))
      "demo" default_base_path.
Proof.
  apply (load_colors_any_line_ending _ _ "demo" default_base_path
           (String Os.LF "") (String Os.CR (String Os.LF ""))
           ["ncolors 2"; "255 0 128"; ""; "0 255 7"]).
  - now left.
  - right. now left.
  - repeat constructor.
  - reflexivity.
  - reflexivity.
Defined.

(** ** Files put end to end *)

Lemma convert_acc (acc : list color) (p0 p1 p2 : string) :
  convert acc p0 p1 p2 = cs <- convert [] p0 p1 p2 ;; Ok (acc ++ cs)%list.
Proof.
  unfold convert, bind.
  repeat match goal with
         | |- context [match ?m with Ok _ => _ | Raise _ => _ end] =>
             lazymatch m with
             | Str.int _ => destruct m; [|reflexivity]
             | Float.int_truediv _ _ => destruct m; [|reflexivity]
             end
         end.
  reflexivity.
Qed.

Lemma body_on_tokens_acc (acc : list color) (parts : list string) :
  body_on_tokens acc parts
  = cs <- body_on_tokens [] parts ;; Ok (acc ++ cs)%list.
Proof.
  unfold body_on_tokens.
  destruct parts as [|t rest]; [cbn [bind]; now rewrite app_nil_r|].
  destruct (_ || _); [cbn [bind]; now rewrite app_nil_r|].
  destruct rest as [|p1 [|p2 [|p3 rest]]];
    try (cbn [bind]; now rewrite app_nil_r).
  apply convert_acc.
Qed.

(** The colors of the lines come after the colors that the loop holds. *)
Lemma for_lines_acc (ls : list string) (acc : list color) :
  for_lines ls acc = cs <- for_lines ls [] ;; Ok (acc ++ cs)%list.
Proof.
  revert acc. induction ls as [|l ls IH]; intros acc.
  - cbn [for_lines bind]. now rewrite app_nil_r.
  - cbn [for_lines]. rewrite !loop_body_on_tokens, (body_on_tokens_acc acc).
    destruct (body_on_tokens [] (Str.split l)) as [c|e]; cbn [bind]; [|reflexivity].
    rewrite (IH (acc ++ c)%list), (IH c).
    destruct (for_lines ls []) as [cs|e]; cbn [bind]; [|reflexivity].
    now rewrite app_assoc.
Qed.

Lemma for_lines_app (l1 l2 : list string) (acc : list color) :
  for_lines (l1 ++ l2) acc = cs <- for_lines l1 acc ;; for_lines l2 cs.
Proof.
  revert acc. induction l1 as [|l l1 IH]; intros acc; [reflexivity|].
  cbn [app for_lines]. destruct (loop_body acc l); cbn [bind]; [apply IH | reflexivity].
Qed.

Lemma universal_newlines_app (u t : string) (b : bool) :
  Os.universal_newlines b ((u ++ String Os.LF "") ++ t)
  = Os.universal_newlines b (u ++ String Os.LF "")
    ++ Os.universal_newlines false t.
Proof.
  revert b. induction u as [|c u IH]; intros b.
  - simpl. now destruct b.
  - simpl. destruct (Ascii.eqb c Os.CR); [simpl; now rewrite IH|].
    destruct (Ascii.eqb c Os.LF); [destruct b|]; simpl; now rewrite IH.
Qed.

Lemma universal_newlines_ends (u : string) (b : bool) :
  b = false \/ u <> "" ->
  exists w, Os.universal_newlines b (u ++ String Os.LF "") = w ++ String Os.LF "".
Proof.
  revert b. induction u as [|c u IH]; intros b H.
  - destruct H as [-> | H]; [now exists "" | contradiction].
  - simpl. destruct (Ascii.eqb c Os.CR).
    + destruct u as [|c' u]; [now exists ""|].
      destruct (IH true) as [w E]; [right; discriminate|].
      rewrite E. now exists (String Os.LF w).
    + destruct (IH false (or_introl eq_refl)) as [w E]. rewrite E.
      destruct (Ascii.eqb c Os.LF); [destruct b|];
        first [now exists w | now exists (String Os.LF w) | now exists (String c w)].
Qed.

Lemma lines_from_app (a b cur : string) :
  Os.lines_from cur ((a ++ String Os.LF "") ++ b)
  = (Os.lines_from cur (a ++ String Os.LF "") ++ Os.lines_from "" b)%list.
Proof.
  revert cur. induction a as [|c a IH]; intros cur.
  - reflexivity.
  - simpl. destruct (Ascii.eqb c Os.LF); [simpl|]; now rewrite IH.
Qed.

(** The lines of two texts put end to end, the first ending a line. *)
Lemma readlines_app (t1 t2 : string) :
  ends_lines t1 ->
  Os.readlines (t1 ++ t2) = (Os.readlines t1 ++ Os.readlines t2)%list.
Proof.
  intros [-> | [u ->]]; [reflexivity|]. unfold Os.readlines.
  rewrite universal_newlines_app.
  destruct (universal_newlines_ends u false (or_introl eq_refl)) as [w ->].
  apply lines_from_app.
Qed.

(** X3. Files put end to end: when the first text is empty or ends with a
    line feed, the file of the two texts together loads to the colors of
    the first followed by the colors of the second, and raises what the
    first raises, or else what the second raises. *)
Theorem load_colors_concatenation
    (fs : filesystem) (name1 name2 name12 base_path text1 text2 : string) :
  fs (Os.path_join base_path (name1 ++ ".rgb")) = Some (File text1) ->
  fs (Os.path_join base_path (name2 ++ ".rgb")) = Some (File text2) ->
  fs (Os.path_join base_path (name12 ++ ".rgb")) = Some (File (text1 ++ text2)) ->
  ends_lines text1 ->
  load_ncl_rgb_colors fs name12 base_path
  = (c1 <- load_ncl_rgb_colors fs name1 base_path ;;
     c2 <- load_ncl_rgb_colors fs name2 base_path ;;
     Ok (c1 ++ c2)%list).
Proof.
  intros F1 F2 F12 E. rewrite !load_unfold, F1, F2, F12.
  rewrite (readlines_app _ _ E), for_lines_app.
  destruct (for_lines (Os.readlines text1) []) as [c1|e]; cbn [bind]; [|reflexivity].
  apply for_lines_acc.
Qed.

(** Three files, the third being the first two put end to end. *)
Lemma load_colors_concatenation_witness :
  load_ncl_rgb_colors sample_fs "both" default_base_path
  = (c1 <- load_ncl_rgb_colors sample_fs "warm" default_base_path ;;
     c2 <- load_ncl_rgb_colors sample_fs "cold" default_base_path ;;
     Ok (c1 ++ c2)%list).
Proof.
  apply (load_colors_concatenation sample_fs "warm" "cold" "both"
           default_base_path _ _ eq_refl eq_refl eq_refl).
  right. exists ("ncolors 2" ++ String Os.LF "255 0 0" ++ String Os.LF "255 128 0").
  reflexivity.
Defined.

(** ** Lines that are passed over, lines that are not integers *)

Lemma split_from_app_space (s tok : string) (c : ascii) :
  Str.isspace c = true ->
  Str.split_from tok (s ++ String c "") = Str.split_from tok s.
Proof.
  intros Hc. revert tok. induction s as [|a s IH]; intros tok.
  - simpl. rewrite Hc. now destruct (Str.is_empty tok).
  - simpl. destruct (Str.isspace a); now rewrite !IH.
Qed.

(** The line feed that ends a line as it is read does not change what the
    loop does with the line. *)
Lemma loop_body_line_feed (colors : list color) (line : string) :
  loop_body colors (line ++ String Os.LF "") = loop_body colors line.
Proof.
  rewrite !loop_body_on_tokens. unfold Str.split.
  now rewrite (split_from_app_space line "" Os.LF eq_refl).
Qed.

Lemma for_lines_line_feeds (ls : list string) (acc : list color) :
  for_lines (map (fun l => l ++ String Os.LF "") ls) acc = for_lines ls acc.
Proof.
  revert acc. induction ls as [|l ls IH]; intros acc; [reflexivity|].
  cbn [map for_lines]. rewrite loop_body_line_feed.
  destruct (loop_body acc l); cbn [bind]; [apply IH | reflexivity].
Qed.

(** X4. A line that the loop passes over (blank, comment, header, or not of
    three tokens) may be put anywhere in a file: the file with the line
    and the file without it load to the same result. *)
Theorem load_colors_insert_skipped_line
    (fs1 fs2 : filesystem) (name base_path eol : string)
    (before after : list string) (line : string) :
  is_eol eol ->
  Forall (fun l => newline_free l = true) (before ++ line :: after) ->
  skipped_line line ->
  fs1 (Os.path_join base_path (name ++ ".rgb"))
  = Some (File (join_lines eol (before ++ line :: after))) ->
  fs2 (Os.path_join base_path (name ++ ".rgb"))
  = Some (File (join_lines eol (before ++ after))) ->
  load_ncl_rgb_colors fs1 name base_path = load_ncl_rgb_colors fs2 name base_path.
Proof.
  intros E N S F1 F2. rewrite !load_unfold, F1, F2.
  assert (N' : Forall (fun l => newline_free l = true) (before ++ after)).
  { apply Forall_app in N. destruct N as [Nb Na]. apply Forall_app.
    split; [assumption | now inversion Na]. }
  rewrite !readlines_join, !for_lines_line_feeds by assumption.
  rewrite !for_lines_app.
  destruct (for_lines before []) as [cs|e]; cbn [bind for_lines]; [|reflexivity].
  now rewrite (loop_body_passes cs line S).
Qed.

(** A comment put between two triplet lines. *)
Lemma load_colors_insert_skipped_line_witness :
  load_ncl_rgb_colors
    (single_file "plot_utils/colormaps/demo.rgb"
       (join_lines (String Os.LF "") (["255 0 128"] ++ "# green next" :: ["0 255 7"])))
    "demo" default_base_path
  = load_ncl_rgb_colors
      (single_file "plot_utils/colormaps/demo.rgb"
         (join_lines (String Os.LF "") (["255 0 128"] ++ ["0 255 7"])))
      "demo" default_base_path.
Proof.
  apply (load_colors_insert_skipped_line _ _ "demo" default_base_path
           (String Os.LF "") ["255 0 128"] ["0 255 7"] "# green next").
  - now left.
  - repeat constructor.
  - left. apply skip_test_spec. reflexivity.
  - reflexivity.
  - reflexivity.
Defined.

Lemma convert_value_error (colors : list color) (p0 p1 p2 : string) :
  (exists e, Str.int p0 = Raise e \/ Str.int p1 = Raise e \/ Str.int p2 = Raise e) ->
  convert colors p0 p1 p2 = Raise ValueError.
Proof.
  intros [e H]. unfold convert.
  destruct (Str.int p0) as [r|e0] eqn:E0; cbn [bind];
    [|now rewrite (int_raises _ _ E0)].
  destruct (Str.int p1) as [g|e1] eqn:E1; cbn [bind];
    [|now rewrite (int_raises _ _ E1)].
  destruct (Str.int p2) as [b|e2] eqn:E2; cbn [bind];
    [|now rewrite (int_raises _ _ E2)].
  destruct H as [H | [H | H]]; discriminate.
Qed.

Lemma readlines_first_line (line rest : string) :
  newline_free line = true ->
  Os.readlines (line ++ String Os.LF rest)
  = (line ++ String Os.LF "") :: Os.readlines rest.
Proof.
  intros N. unfold Os.readlines.
  rewrite (universal_newlines_line line _ false N).
  cbn [andb Os.universal_newlines]. simpl (Ascii.eqb _ _). cbn iota.
  now rewrite (lines_from_line line "" _ N).
Qed.

(** X5. A line of three tokens, not a comment and not the header, with a
    token that [int] rejects makes the call raise [ValueError], whatever
    comes after the line, when the lines before it load: the colors read
    so far are not returned. *)
Theorem load_colors_value_error
    (fs : filesystem) (name name_before base_path before line after : string)
    (p0 p1 p2 : string) (cs : list color) :
  fs (Os.path_join base_path (name ++ ".rgb"))
  = Some (File (before ++ line ++ String Os.LF after)) ->
  fs (Os.path_join base_path (name_before ++ ".rgb")) = Some (File before) ->
  ends_lines before ->
  load_ncl_rgb_colors fs name_before base_path = Ok cs ->
  newline_free line = true ->
  ~ is_blank_comment_or_header (Str.strip line) ->
  Str.split line = [p0; p1; p2] ->
  (exists e, Str.int p0 = Raise e \/ Str.int p1 = Raise e \/ Str.int p2 = Raise e) ->
  load_ncl_rgb_colors fs name base_path = Raise ValueError.
Proof.
  intros F Fb E Lb N H S B. rewrite load_unfold, Fb in Lb.
  rewrite load_unfold, F, (readlines_app _ _ E), for_lines_app, Lb.
  cbn [bind]. rewrite (readlines_first_line line after N).
  cbn [for_lines]. rewrite loop_body_line_feed, loop_body_unfold. cbv zeta.
  rewrite <- skip_test_spec in H. apply not_true_is_false in H.
  rewrite H, split_strip, S, (convert_value_error cs p0 p1 p2 B).
  reflexivity.
Qed.

(** The file with the line [0 0.5 255] after two triplet lines. *)
Lemma load_colors_value_error_witness :
  load_ncl_rgb_colors sample_fs "broken" default_base_path = Raise ValueError.
Proof.
  refine (load_colors_value_error sample_fs "broken" "warm" default_base_path
            (unlines ["ncolors 2"; "255 0 0"; "255 128 0"]) "0 0.5 255"
            (unlines ["0 0 255"]) "0" "0.5" "255" _
            eq_refl eq_refl _ eq_refl eq_refl _ eq_refl _).
  - right. exists ("ncolors 2" ++ String Os.LF "255 0 0" ++ String Os.LF "255 128 0").
    reflexivity.
  - intros H. apply skip_test_spec in H. discriminate.
  - exists ValueError. right. left. reflexivity.
Defined.

(** ** The channels *)

Lemma all_pairs_increasing :
  forallb (fun a => forallb (increasing_check a) (seq 0 256)) (seq 0 256) = true.
Proof. vm_compute. reflexivity. Qed.

Lemma ltb_irrefl (x : float) : Float.ltb x x = false.
Proof.
  unfold Float.ltb, SFltb. destruct x as [s|s| |s m e]; simpl;
    try reflexivity; try (now destruct s).
  destruct s; rewrite Z.compare_refl, Pos.compare_cont_refl; reflexivity.
Qed.

Lemma channels_increasing (r r' : Z) :
  is_channel r -> is_channel r' -> r < r' ->
  exists x x',
    Float.int_truediv r 255 = Ok x /\ Float.int_truediv r' 255 = Ok x'
    /\ Float.ltb x x' = true.
Proof.
  intros [L H] [L' H'] Lt.
  assert (I : In (Z.to_nat r) (seq 0 256)) by (apply in_seq; lia).
  assert (I' : In (Z.to_nat r') (seq 0 256)) by (apply in_seq; lia).
  pose proof (proj1 (forallb_forall _ _) all_pairs_increasing _ I) as C.
  pose proof (proj1 (forallb_forall _ _) C _ I') as C'.
  unfold increasing_check in C'. rewrite !Z2Nat.id in C' by assumption.
  replace (Z.to_nat r' <=? Z.to_nat r)%nat with false in C'
    by (symmetry; apply Nat.leb_gt; lia).
  cbn [orb] in C'.
  destruct (Float.int_truediv r 255) as [x|]; [|discriminate].
  destruct (Float.int_truediv r' 255) as [x'|]; [|discriminate].
  now exists x, x'.
Qed.

(** X6. Dividing by 255 keeps the order of the channel values: for two
    integers of [0, 255], the smaller gives the smaller float, so two
    different channel values never give the same float. *)
Theorem channel_normalization_increasing (r r' : Z) :
  is_channel r -> is_channel r' ->
  (r < r' ->
   exists x x',
     Float.int_truediv r 255 = Ok x /\ Float.int_truediv r' 255 = Ok x'
     /\ Float.ltb x x' = true)
  /\ (Float.int_truediv r 255 = Float.int_truediv r' 255 -> r = r').
Proof.
  intros C C'. split; [now apply channels_increasing|].
  intros E. destruct (Z.lt_total r r') as [Lt | [Eq | Gt]]; [exfalso|assumption|exfalso].
  - destruct (channels_increasing r r' C C' Lt) as [x [x' [Hx [Hx' L]]]].
    assert (x = x') by congruence. subst x'. now rewrite ltb_irrefl in L.
  - destruct (channels_increasing r' r C' C Gt) as [x [x' [Hx [Hx' L]]]].
    assert (x = x') by congruence. subst x'. now rewrite ltb_irrefl in L.
Qed.

(** The channels 127 and 128. *)
Lemma channel_normalization_increasing_witness :
  exists x x',
    Float.int_truediv 127 255 = Ok x /\ Float.int_truediv 128 255 = Ok x'
    /\ Float.ltb x x' = true.
Proof.
  apply (proj1 (channel_normalization_increasing 127 128
                  ltac:(unfold is_channel; lia) ltac:(unfold is_channel; lia))).
  lia.
Defined.

(** ** The path *)

Lemma endswith_sep_app (base : string) : Os.endswith_sep (base ++ "/") = true.
Proof.
  induction base as [|c base IH]; [reflexivity|].
  simpl. destruct (base ++ "/") eqn:E; [destruct base; discriminate | assumption].
Qed.

Lemma path_join_trailing_sep (base b : string) :
  base <> "" -> Os.endswith_sep base = false ->
  Os.path_join (base ++ "/") b = Os.path_join base b.
Proof.
  intros Hb He. unfold Os.path_join.
  destruct (Str.startswith _ b); [reflexivity|].
  rewrite endswith_sep_app, He, orb_true_r.
  destruct base; [contradiction|]. cbn [Str.is_empty orb].
  now rewrite app_assoc_str.
Qed.

(** X7. For a [base_path] that is not empty and does not end with a
    separator, one separator put at its end changes nothing: the call with
    [base_path/] is the call with [base_path], result and message. *)
Theorem load_colors_trailing_separator
    (fs : filesystem) (name base_path : string) :
  base_path <> "" -> Os.endswith_sep base_path = false ->
  load_ncl_rgb_colors fs name (base_path ++ "/")
  = load_ncl_rgb_colors fs name base_path.
Proof.
  intros Hb He. rewrite !load_unfold.
  now rewrite (path_join_trailing_sep base_path _ Hb He).
Qed.

(** The default directory written with a separator at its end. *)
Lemma load_colors_trailing_separator_witness :
  load_ncl_rgb_colors sample_fs "warm" "plot_utils/colormaps/"
  = load_ncl_rgb_colors sample_fs "warm" "plot_utils/colormaps".
Proof.
  apply (load_colors_trailing_separator sample_fs "warm" "plot_utils/colormaps").
  - discriminate.
  - reflexivity.
Defined.

(** X8. A name that starts with a separator is taken as an absolute path:
    [base_path] is then not used, and the path is [name.rgb]. *)
Theorem load_colors_absolute_name
    (fs : filesystem) (name base_path base_path' : string) :
  Str.startswith "/" name = true ->
  Os.path_join base_path (name ++ ".rgb") = name ++ ".rgb"
  /\ load_ncl_rgb_colors fs name base_path
     = load_ncl_rgb_colors fs name base_path'.
Proof.
  intros H.
  assert (P : forall b, Os.path_join b (name ++ ".rgb") = name ++ ".rgb").
  { intros b. unfold Os.path_join. change (String Os.sep "") with "/".
    now rewrite startswith_sep_rgb, H. }
  split; [apply P|]. now rewrite !load_unfold, !P.
Qed.

(** An absolute name with two directories. *)
Lemma load_colors_absolute_name_witness :
  Os.path_join default_base_path ("/data/warm" ++ ".rgb") = "/data/warm" ++ ".rgb"
  /\ load_ncl_rgb_colors sample_fs "/data/warm" default_base_path
     = load_ncl_rgb_colors sample_fs "/data/warm" "elsewhere".
Proof.
  apply (load_colors_absolute_name sample_fs "/data/warm" default_base_path
           "elsewhere").
  reflexivity.
Defined.

(** * Further properties of the valid data frame *)

(** ** Indices and shapes *)







Lemma normalize_index_negative (n : nat) (i : Z) :
  0 <= i < Z.of_nat n ->
  Np.normalize_index n (i - Z.of_nat n) = Np.normalize_index n i.
Proof.
  intros H.
  assert (E : Np.normalize_index n i = Ok (Z.to_nat i))
    by (apply normalize_index_spec; left; lia).
  rewrite E. apply normalize_index_spec. right. split; [lia|]. f_equal. lia.
Qed.

(** X10. Negative indices count from the end of the axis: for an index [i]
    within an axis of length [n], the index [i - n] selects the same slice,
    and the call does the same, on each axis of [level_idx]. *)
Theorem valid_data_frame_negative_index
    (convex_hull : list point -> result geometry)
    (h : Heap.heap) (da : DataArray) (i0 i1 : Z) :
  0 <= i0 < Z.of_nat (Np.dim0 (values da)) ->
  0 <= i1 < Z.of_nat (Np.dim1 (values da)) ->
  let n0 := Z.of_nat (Np.dim0 (values da)) in
  let n1 := Z.of_nat (Np.dim1 (values da)) in
  get_valid_data_frame convex_hull da (i0 - n0, i1 - n1) h
  = get_valid_data_frame convex_hull da (i0, i1) h
  /\ get_valid_data_frame convex_hull da (i0 - n0, i1) h
     = get_valid_data_frame convex_hull da (i0, i1) h
  /\ get_valid_data_frame convex_hull da (i0, i1 - n1) h
     = get_valid_data_frame convex_hull da (i0, i1) h.
Proof.
  intros H0 H1. cbv zeta.
  unfold get_valid_data_frame, Np.getitem. cbn [fst snd].
  now rewrite (normalize_index_negative _ _ H0), (normalize_index_negative _ _ H1).
Qed.

(** The last slice of an array with one slice, written [(-1, -1)]. *)
Lemma valid_data_frame_negative_index_witness :
  get_valid_data_frame Geo.brute_hull (snd grid_2x2) (0 - 1, 0 - 1) (fst grid_2x2)
  = get_valid_data_frame Geo.brute_hull (snd grid_2x2) (0, 0) (fst grid_2x2).
Proof.
  refine (proj1 (valid_data_frame_negative_index Geo.brute_hull
                   (fst grid_2x2) (snd grid_2x2) 0 0 _ _)); simpl; lia.
Defined.

(** ** What the result depends on *)

Lemma in_positions (ny nx y x : nat) :
  In (y, x) (positions ny nx) <-> (y < ny)%nat /\ (x < nx)%nat.
Proof.
  unfold positions. rewrite in_flat_map. split.
  - intros [y' [Hy Hx]]. apply in_map_iff in Hx.
    destruct Hx as [x' [[= <- <-] Hx]]. apply in_seq in Hy, Hx. lia.
  - intros [Hy Hx]. exists y. split; [apply in_seq; lia|].
    apply in_map, in_seq. lia.
Qed.

Lemma flat_map_ext_in {A B : Type} (f g : A -> list B) (l : list A) :
  (forall a, In a l -> f a = g a) -> flat_map f l = flat_map g l.
Proof.
  induction l as [|a l IH]; intros H; [reflexivity|].
  simpl. rewrite (H a (or_introl eq_refl)), IH; [reflexivity|].
  intros b Hb. apply H. now right.
Qed.

(** X11. The result depends on the selected slice only through the places
    of its missing values, and on [lat] and [lon] only at the places that
    are not missing: two calls, on well-formed arrays with slices of the
    same shape that agree on these, return the same. *)
Theorem valid_data_frame_depends_on_mask
    (convex_hull : list point -> result geometry)
    (h h' : Heap.heap) (da da' : DataArray) (level_idx level_idx' : Z * Z)
    (i j i' j' : nat) :
  well_formed h da -> well_formed h' da' ->
  index_of (Np.dim0 (values da)) (fst level_idx) i ->
  index_of (Np.dim1 (values da)) (snd level_idx) j ->
  index_of (Np.dim0 (values da')) (fst level_idx') i' ->
  index_of (Np.dim1 (values da')) (snd level_idx') j' ->
  Np.dim2 (values da) = Np.dim2 (values da') ->
  Np.dim3 (values da) = Np.dim3 (values da') ->
  (forall y x,
      (y < Np.dim2 (values da))%nat -> (x < Np.dim3 (values da))%nat ->
      Float.isnan (at4 h (values da) i j y x)
      = Float.isnan (at4 h' (values da') i' j' y x)
      /\ (Float.isnan (at4 h (values da) i j y x) = false ->
          at2 h (lon da) y x = at2 h' (lon da') y x
          /\ at2 h (lat da) y x = at2 h' (lat da') y x)) ->
  fst (get_valid_data_frame convex_hull da level_idx h)
  = fst (get_valid_data_frame convex_hull da' level_idx' h').
Proof.
  intros W W' Hi Hj Hi' Hj' D2 D3 H.
  rewrite (get_valid_data_frame_valid_points _ _ _ _ i j W Hi Hj).
  rewrite (get_valid_data_frame_valid_points _ _ _ _ i' j' W' Hi' Hj').
  f_equal. unfold valid_points. rewrite <- D2, <- D3.
  apply flat_map_ext_in. intros [y x] Hp. apply in_positions in Hp.
  destruct Hp as [Hy Hx]. destruct (H y x Hy Hx) as [N C]. rewrite <- N.
  destruct (Float.isnan _); [reflexivity|].
  now destruct (C eq_refl) as [-> ->].
Qed.

(** ** The vertices *)

(** X12. With a hull that meets [Geo.hull_contract], when the valid points
    of the slice are finite and not all on one line, the call returns a
    polygon, and every vertex of it is the pair [(lon, lat)] of a place of
    the slice whose value is not missing. *)
Theorem valid_data_frame_vertices_valid
    (convex_hull : list point -> result geometry)
    (h : Heap.heap) (da : DataArray) (level_idx : Z * Z) (i j : nat) :
  Geo.hull_contract convex_hull ->
  well_formed h da ->
  index_of (Np.dim0 (values da)) (fst level_idx) i ->
  index_of (Np.dim1 (values da)) (snd level_idx) j ->
  Forall Geo.finite_point (valid_points h da i j) ->
  (exists a b c,
      In a (valid_points h da i j) /\ In b (valid_points h da i j)
      /\ In c (valid_points h da i j) /\ ~ (Geo.cross a b c == 0)%Q) ->
  exists ring,
    fst (get_valid_data_frame convex_hull da level_idx h)
    = Ok (Some (Polygon ring))
    /\ forall v, In v ring ->
         exists y x,
           (y < Np.dim2 (values da))%nat /\ (x < Np.dim3 (values da))%nat
           /\ Float.isnan (at4 h (values da) i j y x) = false
           /\ v = (at2 h (lon da) y x, at2 h (lat da) y x).
Proof.
  intros C W Hi Hj F T.
  destruct (C _ F T) as [ring [Hring Hv]].
  destruct T as [a [b [c [Ha [Hb [Hc N]]]]]].
  pose proof (triangle_three_points _ a b c Ha Hb Hc N) as L.
  exists ring. split.
  - rewrite (get_valid_data_frame_valid_points _ _ _ _ i j W Hi Hj).
    unfold hull_or_none.
    replace (_ <? 3)%nat with false by (symmetry; apply Nat.ltb_ge; exact L).
    now rewrite Hring.
  - intros v Hin. apply in_valid_points. now apply Hv.
Qed.

(** Two grids with the same missing place, other values and another
    longitude at the missing place. *)
Lemma valid_data_frame_depends_on_mask_witness :
  fst (get_valid_data_frame Geo.brute_hull (snd grid_2x2) (0, 0) (fst grid_2x2))
  = fst (get_valid_data_frame Geo.brute_hull (snd grid_2x2_other) (0, 0)
           (fst grid_2x2_other)).
Proof.
  apply (valid_data_frame_depends_on_mask Geo.brute_hull
           (fst grid_2x2) (fst grid_2x2_other) (snd grid_2x2) (snd grid_2x2_other)
           (0, 0) (0, 0) 0%nat 0%nat 0%nat 0%nat).
  - apply mk_grid_well_formed; reflexivity.
  - apply mk_grid_well_formed; reflexivity.
  - left. simpl. lia.
  - left. simpl. lia.
  - left. simpl. lia.
  - left. simpl. lia.
  - reflexivity.
  - reflexivity.
  - intros [|[|y]] [|[|x]] Hy Hx; simpl in Hy, Hx; try lia;
      (split; [reflexivity|]); vm_compute; intros H;
      first [discriminate H | split; reflexivity].
Defined.

(** The three valid points of the grid of two rows and two columns. *)
Lemma valid_data_frame_vertices_valid_witness :
  exists ring,
    fst (get_valid_data_frame Geo.brute_hull (snd grid_2x2) (0, 0) (fst grid_2x2))
    = Ok (Some (Polygon ring))
    /\ forall v, In v ring ->
         exists y x,
           (y < 2)%nat /\ (x < 2)%nat
           /\ Float.isnan (at4 (fst grid_2x2) (values (snd grid_2x2)) 0 0 y x) = false
           /\ v = (at2 (fst grid_2x2) (lon (snd grid_2x2)) y x,
                   at2 (fst grid_2x2) (lat (snd grid_2x2)) y x).
Proof.
  apply (valid_data_frame_vertices_valid Geo.brute_hull (fst grid_2x2)
           (snd grid_2x2) (0, 0) 0%nat 0%nat).
  - exact brute_hull_contract.
  - apply mk_grid_well_formed; reflexivity.
  - left. simpl. lia.
  - left. simpl. lia.
  - vm_compute valid_points. repeat constructor.
  - exists (num 7, num 46), (num 7, num 47), (num 8, num 47).
    vm_compute valid_points.
    repeat split; [now left | right; now left | right; right; now left |].
    vm_compute. discriminate.
Defined.
